(** * Yagi: symbol resolution over an IDA database (src/yagi/src/idasymbol.cc)

    A shallow embedding of [IdaSymbolInfoFactory::find], [IdaSymbolInfo] and
    [IdaFunctionSymbolInfo].  The IDA kernel is closed source: its state is a
    record of tables ([ida_database]) plus the netnode store, and the SDK
    entry points the code calls are functions over them, written after the
    SDK headers.  Machine integers are [Z] with the wrap-around written out.
    A [std::string] is a [string] that may hold NUL characters, and every
    [.c_str()] of the source is the cut at the first NUL ([c_str]); a
    [qstring] is the C string it holds, so what the SDK returns is cut the
    same way, and its [size()] is 0 exactly when it is empty. *)

From Stdlib Require Import ZArith Lia Bool List Ascii String HexString.
From stdpp Require Import base gmap strings list fin_maps.

Local Open Scope Z_scope.

(** ** Machine integers *)

Definition wrap (bits x : Z) : Z := x mod 2 ^ bits.

(** [ea_t] and [asize_t] are 32 bits wide in an IDA32 build and 64 bits wide
    when [__EA64__] is defined. *)
Inductive ea_model : Type := EA32 | EA64.

Definition ea_bits (m : ea_model) : Z :=
  match m with EA32 => 32 | EA64 => 64 end.

Definition to_ea (m : ea_model) (x : Z) : Z := wrap (ea_bits m) x.
Definition to_uint32 (x : Z) : Z := wrap 32 x.
Definition to_uint64 (x : Z) : Z := wrap 64 x.

(** ** Strings *)

Definition NUL : ascii := Ascii.zero.

(** What a [const char*] reader sees of a string: the characters before the
    first NUL. *)
Fixpoint c_str (s : string) : string :=
  match s with
  | EmptyString => EmptyString
  | String c r => if Ascii.eqb c NUL then EmptyString else String c (c_str r)
  end.

(** [s.find(c)]: the position of the first [c], [None] for [npos]. *)
Fixpoint find_char (c : ascii) (s : string) : option nat :=
  match s with
  | EmptyString => None
  | String d r =>
      if Ascii.eqb d c then Some O
      else match find_char c r with Some n => Some (S n) | None => None end
  end.

(** [s.substr(pos, n)], for [pos <= s.size()]. *)
Definition substr (s : string) (pos n : nat) : string := String.substring pos n s.

(** [s.substr(pos)], for [pos <= s.size()]. *)
Definition substr_from (s : string) (pos : nat) : string :=
  String.substring pos (String.length s - pos) s.

Definition strlen (s : string) : Z := Z.of_nat (String.length s).

(** ** Results *)

(** [SymbolIsNotAFunction] is thrown by this file; [ParseFailure] stands for
    what the type parser throws on a declaration it cannot read. *)
Inductive exception : Type :=
| SymbolIsNotAFunction (name : string)
| ParseFailure (decl : string).

(** A call returns, throws, or has no defined behaviour (a null pointer is
    dereferenced). *)
Inductive result (A : Type) : Type :=
| Ok (a : A)
| Throw (e : exception)
| Undefined.

Arguments Ok {A} a.
Arguments Throw {A} e.
Arguments Undefined {A}.

(** ** The IDA database, as the code consumes it *)

(** [func_t] (funcs.hpp): the range of a function, the size of its local
    variables and of its saved registers. *)
Record func_t : Type := {
  start_ea : Z;
  end_ea : Z;
  frsize : Z;
  frregs : Z
}.

(** [member_t] (struct.hpp). *)
Record member_t : Type := {
  id : Z;
  soff : Z;
  props : Z
}.

Definition MF_UNIMEM : Z := 2.

Definition unimem (m : member_t) : bool := negb (Z.land (props m) MF_UNIMEM =? 0).

Definition get_soff (m : member_t) : Z := if unimem m then 0 else soff m.

(** [struc_t]: the array [members], of [memqty] elements. *)
Record struc_t : Type := {
  members : list member_t
}.

(** [segment_t] (segment.hpp), with the name [get_segm_name] finds for it. *)
Record segment_t : Type := {
  segm_name : string;
  perm : Z
}.

Definition SEGPERM_EXEC : Z := 1.
Definition SEGPERM_WRITE : Z := 2.
Definition SEGPERM_READ : Z := 4.

(** One position of an [xrefblk_t] iteration (xref.hpp). *)
Record xrefblk_t : Type := {
  iscode : bool;
  type : Z
}.

(** [cref_t] and [dref_t] values. *)
Definition fl_CF : Z := 16.
Definition fl_CN : Z := 17.
Definition fl_JF : Z := 18.
Definition fl_JN : Z := 19.
Definition fl_F : Z := 21.
Definition dr_O : Z := 1.
Definition dr_W : Z := 2.
Definition dr_R : Z := 3.

(** One imported name, as [enum_import_names] hands it to its callback; the
    name is a null pointer for an import by ordinal. *)
Record import_t : Type := {
  imp_ea : Z;
  imp_name : option string;
  imp_ord : Z
}.

Record ida_database : Type := {
  db_names : Z -> option string;
  db_funcs : Z -> option func_t;
  db_frames : func_t -> option struc_t;
  db_struc_names : Z -> string;
  db_segs : Z -> option segment_t;
  db_xrefs_to : Z -> list xrefblk_t;
  db_imports : list (list import_t);
  db_cleanup : Z -> string -> option string;
  db_demangle : string -> Z -> string
}.

(** The netnode store: a node is found by its name and holds at most one
    value. *)
Abbreviation netnodes := (gmap string (option string)).

(** *** SDK entry points *)

Section Sdk.
Variable ea : ea_model.
Variable db : ida_database.

(** [get_name(&out, ea)]: the size of the name and the name, 0 when the
    address has none. *)
Definition get_name (a : Z) : Z * string :=
  match db_names db (to_ea ea a) with
  | Some n => (strlen (c_str n), c_str n)
  | None => (0, EmptyString)
  end.

Definition get_func (a : Z) : option func_t := db_funcs db (to_ea ea a).

Definition get_frame (f : option func_t) : option struc_t :=
  match f with Some pfn => db_frames db pfn | None => None end.

Definition get_struc_name (tid : Z) : string := c_str (db_struc_names db tid).

Definition getseg (a : Z) : option segment_t := db_segs db (to_ea ea a).

(** [get_segm_name(&out, s)]: the size of the name and the name, -1 for a
    null segment. *)
Definition get_segm_name (s : option segment_t) : Z * string :=
  match s with
  | Some sg => (strlen (c_str (segm_name sg)), c_str (segm_name sg))
  | None => (-1, EmptyString)
  end.

(** The references to an address, in the order [first_to] and [next_to]
    give them. *)
Definition xrefs_to (a : Z) : list xrefblk_t := db_xrefs_to db (to_ea ea a).

Definition get_import_module_qty : Z := Z.of_nat (List.length (db_imports db)).

(** The callback is called on each import until it returns a value other
    than 1, which is then the result; 1 when the enumeration finishes. *)
Fixpoint enum_imports (callback : import_t -> Z) (l : list import_t) : Z :=
  match l with
  | [] => 1
  | e :: r => let c := callback e in if c =? 1 then enum_imports callback r else c
  end.

Definition enum_import_names (mod_index : nat) (callback : import_t -> Z) : Z :=
  match nth_error (db_imports db) mod_index with
  | Some l => enum_imports callback l
  | None => -1
  end.

(** [cleanup_name(&out, ea, name)]: [None] when it returns false. *)
Definition cleanup_name (a : Z) (name : string) : option string :=
  match db_cleanup db (to_ea ea a) name with
  | Some n => Some (c_str n)
  | None => None
  end.

Definition demangle_name (name : string) (disable_mask : Z) : string :=
  c_str (db_demangle db name disable_mask).

End Sdk.

(** *** The netnode API *)

(** [netnode n(name, 0, do_create)]: the node of that name, created when it
    is missing and [do_create] is set.  The node is known by its name. *)
Definition netnode_open (st : netnodes) (name : string) (do_create : bool) : netnodes :=
  match st !! name with
  | Some _ => st
  | None => if do_create then <[name := None]> st else st
  end.

(** [n.set(value)]. *)
Definition netnode_set (st : netnodes) (name value : string) : netnodes :=
  <[name := Some value]> st.

(** [n.valstr(&buf)]: the size of the value and the value; -1 and an
    untouched (empty) buffer when the node has no value. *)
Definition netnode_valstr (st : netnodes) (name : string) : Z * string :=
  match st !! name with
  | Some (Some v) => (strlen v, v)
  | _ => (-1, EmptyString)
  end.

(** The value a node holds, if it exists and has one. *)
Definition node_value (st : netnodes) (name : string) : option string :=
  match st !! name with
  | Some (Some v) => Some v
  | _ => None
  end.

(** ** What the headers fix

    [IMPORT_PREFIX] and [to_hex] are declared in headers of the repository
    that are not part of the translated file, and the width of [ea_t] is a
    build flag of the SDK; the code is read over any choice of them. *)
Class Headers : Type := {
  ea_size : ea_model;
  IMPORT_PREFIX : string;
  to_hex : Z -> string
}.

(** A rendering of an address is plain when it holds no NUL and no dot, as
    a hexadecimal numeral does. *)
Definition plain (h : string) : Prop :=
  c_str h = h /\ find_char "."%char h = None.

(** The [TypeInfo] interface and the factory of idatype.hh, as far as
    [IdaFunctionSymbolInfo] uses them. *)
Class TypeInfoFactory (TypeInfo : Type) : Type := {
  TypeInfo_getName : TypeInfo -> string;
  build_decl : string -> result (option TypeInfo)
}.

(** ** IdaSymbolInfo *)

Record SymbolInfo : Type := {
  m_ea : Z;
  m_name : string
}.

Section IdaSymbolInfo.
Context `{Headers}.
Variable db : ida_database.

(** [IdaSymbolInfoFactory::find]. *)
Definition find (a : Z) : option SymbolInfo :=
  let '(r, name) := get_name ea_size db a in
  if (r =? 0) || (strlen name =? 0) then None
  else Some {| m_ea := to_uint64 a; m_name := c_str name |}.

Definition isFunction (s : SymbolInfo) : bool :=
  match get_func ea_size db (m_ea s) with
  | Some idaFunc => start_ea idaFunc =? m_ea s
  | None => false
  end.

(** The callback of [isImport]: 0 stops the enumeration on a match. *)
Definition import_callback (importName : string) (e : import_t) : Z :=
  match imp_name e with
  | Some name => if String.eqb importName (c_str name) then 0 else 1
  | None => 1
  end.

Fixpoint isImport_loop (importName : string) (todo : nat) (i : nat) : bool :=
  match todo with
  | O => false
  | S k =>
      let found := enum_import_names db i (import_callback importName) in
      if negb (found =? -1) && negb (found =? 1) then true
      else isImport_loop importName k (S i)
  end.

Definition isImport (s : SymbolInfo) : bool :=
  let importName := m_name s in
  let importName :=
    if (6 <? strlen importName) && String.eqb (substr importName 0 6) IMPORT_PREFIX
    then substr importName 6 (String.length importName - 6)
    else importName in
  isImport_loop importName (Z.to_nat (get_import_module_qty db)) 0.

Fixpoint isLabel_loop (xs : list xrefblk_t) : bool :=
  match xs with
  | [] => false
  | xr :: rest =>
      if negb (iscode xr) then false
      else if negb (type xr =? fl_JN) then isLabel_loop rest
      else true
  end.

Definition isLabel (s : SymbolInfo) : bool :=
  isLabel_loop (xrefs_to ea_size db (m_ea s)).

Definition isReadOnly (s : SymbolInfo) : result bool :=
  let seg := getseg ea_size db (m_ea s) in
  let '(r, idaName) := get_segm_name seg in
  if negb (r =? 0) && String.eqb idaName ".data" then Ok true
  else
    match seg with
    | Some sg =>
        Ok ((perm sg =? SEGPERM_READ) || (perm sg =? SEGPERM_READ + SEGPERM_EXEC))
    | None => Undefined
    end.

Definition getFunctionSize (s : SymbolInfo) : result Z :=
  match get_func ea_size db (m_ea s) with
  | None => Throw (SymbolIsNotAFunction (m_name s))
  | Some function =>
      if negb (start_ea function =? m_ea s)
      then Throw (SymbolIsNotAFunction (m_name s))
      else Ok (to_uint64 (to_ea ea_size (end_ea function - start_ea function)))
  end.

Definition MNG_MASK : Z := 0x0EA3BE67.

(** The first step of [getName]: [pname] as it stands before demangling. *)
Definition pname_before_demangling (s : SymbolInfo) : string :=
  if String.eqb (substr (m_name s) 0 4) "sub_" then c_str (m_name s)
  else match cleanup_name ea_size db (m_ea s) (c_str (m_name s)) with
       | Some cleaned => cleaned
       | None => c_str (m_name s)
       end.

Definition getName (s : SymbolInfo) : string :=
  let pname := pname_before_demangling s in
  let idaName := demangle_name db (c_str pname) MNG_MASK in
  let pname :=
    if negb (String.eqb idaName "") then
      let pp := match find_char "("%char idaName with
                | Some pp => pp
                | None => String.length idaName
                end in
      substr idaName 0 pp
    else pname in
  if isImport s then IMPORT_PREFIX +:+ c_str pname else c_str pname.

End IdaSymbolInfo.

(** ** IdaFunctionSymbolInfo *)

Record FunctionSymbolInfo : Type := {
  m_symbol : SymbolInfo
}.

Definition getAddress (s : SymbolInfo) : Z := m_ea s.

Section IdaFunctionSymbolInfo.
Context `{Headers}.
Context {TypeInfo : Type} `{TypeInfoFactory TypeInfo}.
Context {MemoryLocation : Type}.
Variable db : ida_database.

(** The offset of a frame member once the locals and the saved registers
    are taken off, in [ea_t] arithmetic. *)
Definition sofset (pfn : func_t) (member : member_t) : Z :=
  to_ea ea_size (get_soff member - to_ea ea_size (frsize pfn + frregs pfn)).

(** The loop of [findStackVar], from some member on; [offset] and
    [addrSize] are already a [uint64_t] and a [uint32_t]. *)
Fixpoint findStackVar_loop (idaFunc : option func_t) (ms : list member_t)
    (offset addrSize : Z) : result (option string) :=
  match ms with
  | [] => Ok None
  | member :: rest =>
      let name := c_str (get_struc_name db (id member)) in
      match idaFunc with
      | None => Undefined
      | Some pfn =>
          if (sofset pfn member =? offset)
             || ((addrSize =? 4)
                 && (to_uint32 (sofset pfn member) =? to_uint32 offset))
          then
            match find_char "."%char name with
            | Some pp => Ok (Some (substr_from name (pp + 1)))
            | None => Ok (Some name)
            end
          else findStackVar_loop idaFunc rest offset addrSize
      end
  end.

Definition findStackVar (fs : FunctionSymbolInfo) (offset addrSize : Z)
    : result (option string) :=
  let idaFunc := get_func ea_size db (getAddress (m_symbol fs)) in
  match get_frame db idaFunc with
  | None => Undefined
  | Some frame =>
      findStackVar_loop idaFunc (members frame) (to_uint64 offset) (to_uint32 addrSize)
  end.

(** The names of the two netnodes kept for a variable of a function. *)
Definition regvar_node (fs : FunctionSymbolInfo) (name : string) : string :=
  "$ " +:+ to_hex (getAddress (m_symbol fs)) +:+ ".yagireg." +:+ name.

Definition type_node (fs : FunctionSymbolInfo) (name : string) : string :=
  "$ " +:+ to_hex (getAddress (m_symbol fs)) +:+ ".yagitype." +:+ name.

Definition findRegVar (fs : FunctionSymbolInfo) (name : string) (st : netnodes)
    : option string * netnodes :=
  let n := c_str (regvar_node fs name) in
  let st := netnode_open st n true in
  let '(size, res) := netnode_valstr st n in
  if strlen res =? 0 then (None, st) else (Some (c_str res), st).

Definition saveRegVar (fs : FunctionSymbolInfo) (name value : string) (st : netnodes)
    : netnodes :=
  let n := c_str (regvar_node fs name) in
  let st := netnode_open st n true in
  netnode_set st n (c_str value).

Definition saveSymbolType (fs : FunctionSymbolInfo) (name : string) (newType : TypeInfo)
    (loc : MemoryLocation) (st : netnodes) : netnodes :=
  let n := c_str (type_node fs name) in
  let st := netnode_open st n true in
  netnode_set st n (c_str (TypeInfo_getName newType)).

Definition findSymbolType (fs : FunctionSymbolInfo) (name : string) (st : netnodes)
    : result (option TypeInfo) * netnodes :=
  let n := c_str (type_node fs name) in
  let st := netnode_open st n true in
  let '(size, res) := netnode_valstr st n in
  if strlen res =? 0 then (Ok None, st) else (build_decl (c_str res), st).

(** The calls that reach the netnode store, and a history of them, each
    made on some function. *)
Inductive call : Type :=
| FindRegVar (name : string)
| SaveRegVar (name value : string)
| SaveSymbolType (name : string) (newType : TypeInfo) (loc : MemoryLocation)
| FindSymbolType (name : string).

Definition perform (st : netnodes) (c : FunctionSymbolInfo * call) : netnodes :=
  match c with
  | (fs, FindRegVar name) => snd (findRegVar fs name st)
  | (fs, SaveRegVar name value) => saveRegVar fs name value st
  | (fs, SaveSymbolType name newType loc) => saveSymbolType fs name newType loc st
  | (fs, FindSymbolType name) => snd (findSymbolType fs name st)
  end.

Definition perform_all (history : list (FunctionSymbolInfo * call)) (st : netnodes)
    : netnodes :=
  fold_left perform history st.

End IdaFunctionSymbolInfo.

(** ** A sample database

    One function [0x401000, 0x401020) with 16 bytes of locals and one saved
    register; a [.text], a writable [.data] and a read-only [.rdata]
    segment; one import module. *)

Definition headers64 : Headers :=
  {| ea_size := EA64; IMPORT_PREFIX := "__imp_"; to_hex := HexString.of_Z |}.

Definition headers32 : Headers :=
  {| ea_size := EA32; IMPORT_PREFIX := "__imp_"; to_hex := HexString.of_Z |}.

Definition sample_func : func_t :=
  {| start_ea := 0x401000; end_ea := 0x401020; frsize := 16; frregs := 8 |}.

Definition sample_frame : struc_t :=
  {| members :=
       [ {| id := 1; soff := 0; props := 1 |};
         {| id := 2; soff := 16; props := 1 |};
         {| id := 3; soff := 24; props := 1 |};
         {| id := 4; soff := 32; props := 1 |} ] |}.

Definition sample_struc_names (tid : Z) : string :=
  if tid =? 1 then "$ F401000.var_18"
  else if tid =? 2 then "$ F401000.var_8"
  else if tid =? 3 then " r"
  else if tid =? 4 then "$ F401000.arg_0"
  else "".

Definition code_seg : segment_t := {| segm_name := ".text"; perm := 5 |}.
Definition data_seg : segment_t := {| segm_name := ".data"; perm := 6 |}.
Definition rdata_seg : segment_t := {| segm_name := ".rdata"; perm := 4 |}.
Definition bss_seg : segment_t := {| segm_name := ".bss"; perm := 6 |}.

Definition call_ref : xrefblk_t := {| iscode := true; type := fl_CN |}.
Definition jump_ref : xrefblk_t := {| iscode := true; type := fl_JN |}.
Definition read_ref : xrefblk_t := {| iscode := false; type := dr_R |}.

Definition sample_db : ida_database :=
  {| db_names := fun a =>
       if a =? 0x401000 then Some "sub_401000"
       else if a =? 0x401010 then Some "loc_401010"
       else if a =? 0x401020 then Some "?bar@Foo@@QAEXH@Z"
       else if a =? 0x403000 then Some "CreateFileW"
       else if a =? 0x403010 then Some "?baz@Foo@@QAEXXZ"
       else if a =? 0x500000 then Some "stray"
       else None;
     db_funcs := fun a =>
       if (0x401000 <=? a) && (a <? 0x401020) then Some sample_func else None;
     db_frames := fun _ => Some sample_frame;
     db_struc_names := sample_struc_names;
     db_segs := fun a =>
       if (0x401000 <=? a) && (a <? 0x402000) then Some code_seg
       else if (0x402000 <=? a) && (a <? 0x403000) then Some rdata_seg
       else if (0x403000 <=? a) && (a <? 0x404000) then Some data_seg
       else if (0x404000 <=? a) && (a <? 0x405000) then Some bss_seg
       else None;
     db_xrefs_to := fun a =>
       if a =? 0x401000 then [call_ref; jump_ref]
       else if a =? 0x401010 then [jump_ref; read_ref]
       else if a =? 0x403000 then [read_ref; jump_ref]
       else [];
     db_imports :=
       [ [ {| imp_ea := 0x403008; imp_name := None; imp_ord := 12 |};
           {| imp_ea := 0x403000; imp_name := Some "CreateFileW"; imp_ord := 0 |};
           {| imp_ea := 0x403010; imp_name := Some "?baz@Foo@@QAEXXZ"; imp_ord := 0 |} ] ];
     db_cleanup := fun _ name => Some name;
     db_demangle := fun name _ =>
       if String.eqb name "?bar@Foo@@QAEXH@Z" then "Foo::bar(int)"
       else if String.eqb name "?baz@Foo@@QAEXXZ" then "Foo::baz(void)"
       else "" |}.

(** The same database with a demangler that also answers on a name of the
    shape [sub_...]. *)
Definition eager_demangler_db : ida_database :=
  {| db_names := db_names sample_db;
     db_funcs := db_funcs sample_db;
     db_frames := db_frames sample_db;
     db_struc_names := db_struc_names sample_db;
     db_segs := db_segs sample_db;
     db_xrefs_to := db_xrefs_to sample_db;
     db_imports := db_imports sample_db;
     db_cleanup := db_cleanup sample_db;
     db_demangle := fun name _ =>
       if String.eqb name "sub_401000" then "Foo::bar(int)" else "" |}.

Definition sub_401000 : SymbolInfo := {| m_ea := 0x401000; m_name := "sub_401000" |}.
Definition loc_401010 : SymbolInfo := {| m_ea := 0x401010; m_name := "loc_401010" |}.
Definition Foo_bar : SymbolInfo := {| m_ea := 0x401020; m_name := "?bar@Foo@@QAEXH@Z" |}.
Definition CreateFileW : SymbolInfo := {| m_ea := 0x403000; m_name := "CreateFileW" |}.
Definition Foo_baz : SymbolInfo := {| m_ea := 0x403010; m_name := "?baz@Foo@@QAEXXZ" |}.
Definition stray : SymbolInfo := {| m_ea := 0x500000; m_name := "stray" |}.

Definition fn_401000 : FunctionSymbolInfo := {| m_symbol := sub_401000 |}.

Definition fn_401020 : FunctionSymbolInfo := {| m_symbol := Foo_bar |}.

(** A type factory for the examples: a type is its declaration, and every
    declaration but [???] parses to itself. *)
Definition declared_types : TypeInfoFactory string :=
  {| TypeInfo_getName := fun t => t;
     build_decl := fun decl =>
       if String.eqb decl "???" then Throw (ParseFailure decl) else Ok (Some decl) |}.

Inductive sample_location : Type := on_stack | in_register.

(** ** The sentence of the specification on [isLabel], word for word

    "true only when the first inspected incoming code reference is a
    direct-jump reference; false if that reference is a call or data
    reference", for the references [xs] and the answer [r]. *)
Definition first_reference_decides (xs : list xrefblk_t) (r : bool) : Prop :=
  (r = true ->
   exists x rest, xs = x :: rest /\ iscode x = true /\ type x = fl_JN) /\
  (forall x rest, xs = x :: rest ->
   (iscode x = true /\ (type x = fl_CN \/ type x = fl_CF)) \/ iscode x = false ->
   r = false).

(** ** The sentence of the specification on placeholder names

    "[getName] on a placeholder-shaped raw name returns it unchanged (aside
    from optional import prefix)". *)
Definition placeholder_kept `{Headers} (db : ida_database) (s : SymbolInfo) : Prop :=
  substr (m_name s) 0 4 = "sub_" ->
  getName db s = if isImport db s then IMPORT_PREFIX +:+ m_name s else m_name s.

(** ** The round trips of the specification

    "[saveRegVar(fn, name, value)] then [findRegVar(fn, name)] returns
    [value]". *)
Definition regvar_round_trip `{Headers} (fs : FunctionSymbolInfo) (name value : string)
    (st : netnodes) : Prop :=
  fst (findRegVar fs name (saveRegVar fs name value st)) = Some value.

(** "[saveSymbolType(fn, name, T1)] then [saveSymbolType(fn, name, T2)] then
    [findSymbolType(fn, name)] returns a descriptor matching [T2]": a
    descriptor is returned, and it has the declaration of [T2]. *)
Definition last_type_returned `{Headers} {TypeInfo : Type} `{TypeInfoFactory TypeInfo}
    {MemoryLocation : Type} (fs : FunctionSymbolInfo) (name : string) (T1 T2 : TypeInfo)
    (loc loc' : MemoryLocation) (st : netnodes) : Prop :=
  exists T,
    fst (findSymbolType fs name
           (saveSymbolType fs name T2 loc' (saveSymbolType fs name T1 loc st)))
    = Ok (Some T) /\
    TypeInfo_getName T = TypeInfo_getName T2.

(** ** IdaSymbolInfoFactory::find_function

    [split] is declared in base.hh, which is not part of the translated
    file: the code is read over any [split].  The short names of the
    database ([get_short_name]) are a table of their own. *)
Class BaseHelpers : Type := {
  split : string -> ascii -> list string
}.

Section FindFunction.
Context `{Headers} `{BaseHelpers}.
Variable db : ida_database.
Variable short_names : Z -> string.

(** [get_short_name(&out, ea)]. *)
Definition get_short_name (a : Z) : string := c_str (short_names (to_ea ea_size a)).

(** [v.back()] is not defined on an empty vector. *)
Definition find_function (a : Z) : result (option FunctionSymbolInfo) :=
  match get_func ea_size db a with
  | None => Ok None
  | Some idaFunc =>
      let idaName := get_short_name (start_ea idaFunc) in
      let beginParameter := find_char "("%char idaName in
      let head := match beginParameter with
                  | Some pp => substr idaName 0 pp
                  | None => idaName
                  end in
      match last (split (c_str head) " "%char) with
      | None => Undefined
      | Some functionName =>
          Ok (Some {| m_symbol := {| m_ea := start_ea idaFunc; m_name := functionName |} |})
      end
  end.

End FindFunction.

(** A [split] for the examples: the pieces between the delimiters, as
    [std::getline] cuts them. *)
Fixpoint sample_split_from (piece : string) (s : string) (c : ascii) : list string :=
  match s with
  | EmptyString => if String.eqb piece EmptyString then [] else [piece]
  | String d r =>
      if Ascii.eqb d c then piece :: sample_split_from EmptyString r c
      else sample_split_from (piece +:+ String d EmptyString) r c
  end.

Definition sample_base : BaseHelpers :=
  {| split := sample_split_from EmptyString |}.

Definition sample_short_names (a : Z) : string :=
  if a =? 0x401000 then "int __cdecl sub_401000(int,char *)" else "".

(** The sample database under another [cleanup_name]. *)
Definition with_cleanup (db : ida_database) (cleanup : Z -> string -> option string)
    : ida_database :=
  {| db_names := db_names db;
     db_funcs := db_funcs db;
     db_frames := db_frames db;
     db_struc_names := db_struc_names db;
     db_segs := db_segs db;
     db_xrefs_to := db_xrefs_to db;
     db_imports := db_imports db;
     db_cleanup := cleanup;
     db_demangle := db_demangle db |}.

(** A cleanup that takes [__imp_] off, and one that always fails. *)
Definition stripping_db : ida_database :=
  with_cleanup sample_db (fun _ name =>
    if String.eqb (substr name 0 6) "__imp_"
    then Some (substr name 6 (String.length name - 6))
    else Some name).

Definition no_cleanup_db : ida_database :=
  with_cleanup sample_db (fun _ _ => None).

Definition imp_CreateFileW : SymbolInfo :=
  {| m_ea := 0x403000; m_name := "__imp_CreateFileW" |}.

(** Every value of the store is a C string. *)
Definition values_are_c_strings (st : netnodes) : Prop :=
  forall k v, node_value st k = Some v -> c_str v = v.

(** ** The sentence of the specification on demangled names

    "Truncate at the first parameter-list opening parenthesis, keeping only
    the qualified name before it".  The parameter list of a demangled name
    is its last parenthesised group: what stands between the parenthesis
    that opens it and the closing one at the end is balanced. *)
Fixpoint paren_depth (depth : nat) (s : string) : option nat :=
  match s with
  | EmptyString => Some depth
  | String c r =>
      if Ascii.eqb c "("%char then paren_depth (S depth) r
      else if Ascii.eqb c ")"%char then
        match depth with
        | O => None
        | S d => paren_depth d r
        end
      else paren_depth depth r
  end.

Definition balanced (s : string) : bool :=
  match paren_depth O s with
  | Some O => true
  | _ => false
  end.

Definition cut_at_parameter_list (d name : string) : Prop :=
  exists params, d = name +:+ "(" +:+ params +:+ ")" /\ balanced params = true.

Definition demangled_cut_at_parameters `{Headers} (db : ida_database) (s : SymbolInfo)
    : Prop :=
  forall d name,
    demangle_name db (c_str (pname_before_demangling db s)) MNG_MASK = d ->
    d <> EmptyString ->
    cut_at_parameter_list d name ->
    getName db s = if isImport db s then IMPORT_PREFIX +:+ name else name.

(** The sample database with the call operator of [Foo] at [0x401020]. *)
Definition operator_db : ida_database :=
  {| db_names := fun a => if a =? 0x401020 then Some "??RFoo@@QAEXH@Z" else None;
     db_funcs := db_funcs sample_db;
     db_frames := db_frames sample_db;
     db_struc_names := db_struc_names sample_db;
     db_segs := db_segs sample_db;
     db_xrefs_to := db_xrefs_to sample_db;
     db_imports := db_imports sample_db;
     db_cleanup := db_cleanup sample_db;
     db_demangle := fun name _ =>
       if String.eqb name "??RFoo@@QAEXH@Z" then "Foo::operator()(int)" else "" |}.

Definition Foo_call : SymbolInfo := {| m_ea := 0x401020; m_name := "??RFoo@@QAEXH@Z" |}.

(** * Properties *)

(** ** Integers and strings *)

Lemma wrap_range (bits x : Z) : 0 <= bits -> 0 <= wrap bits x < 2 ^ bits.
Proof.
  intros Hb. unfold wrap. apply Z.mod_pos_bound. apply Z.pow_pos_nonneg; lia.
Qed.

Lemma wrap_small (bits x : Z) : 0 <= x < 2 ^ bits -> wrap bits x = x.
Proof. intros Hx. unfold wrap. apply Z.mod_small. exact Hx. Qed.

Lemma to_ea_to_uint64 (m : ea_model) (x : Z) : to_ea m (to_uint64 x) = to_ea m x.
Proof.
  unfold to_ea, to_uint64, wrap.
  destruct m; simpl ea_bits.
  - apply Z.mod_mod_divide. exists (2 ^ 32). reflexivity.
  - apply Z.mod_mod. lia.
Qed.

Lemma c_str_idem (s : string) : c_str (c_str s) = c_str s.
Proof.
  induction s as [|c r IH]; simpl; [reflexivity|].
  destruct (Ascii.eqb c NUL) eqn:E; simpl; [reflexivity|].
  rewrite E, IH. reflexivity.
Qed.

(** ** isLabel *)

Section IsLabel.
Context `{Headers}.
Variable db : ida_database.

Lemma isLabel_loop_true_iff (xs : list xrefblk_t) :
  isLabel_loop xs = true <->
  exists pre xr post,
    xs = pre ++ xr :: post /\
    Forall (fun x => iscode x = true /\ type x <> fl_JN) pre /\
    iscode xr = true /\ type xr = fl_JN.
Proof.
  induction xs as [|x rest IH]; simpl.
  - split; [discriminate|].
    intros (pre & xr & post & E & _). destruct pre; discriminate E.
  - destruct (iscode x) eqn:Hc; simpl.
    + destruct (type x =? fl_JN) eqn:Ht; simpl.
      * apply Z.eqb_eq in Ht. split; [intros _|reflexivity].
        exists [], x, rest. repeat split; auto.
      * apply Z.eqb_neq in Ht. rewrite IH. split.
        -- intros (pre & xr & post & E & Hpre & Hxr).
           exists (x :: pre), xr, post. subst rest. repeat split; auto; tauto.
        -- intros (pre & xr & post & E & Hpre & Hxc & Hxt).
           destruct pre as [|p pre]; simpl in E; inversion E; subst.
           ++ contradiction.
           ++ inversion Hpre; subst. exists pre, xr, post. auto.
    + split; [discriminate|].
      intros (pre & xr & post & E & Hpre & Hxc & Hxt).
      destruct pre as [|p pre]; simpl in E; inversion E; subst.
      * congruence.
      * inversion Hpre; subst. destruct H2. congruence.
Qed.

(** C2, as the code has it: [isLabel] is true exactly when a direct-jump
    ([fl_JN]) code reference is met before the first reference that is not a
    code reference.  Code references of another kind are skipped: a data
    reference in first place gives false, a direct jump in first place gives
    true, and after a call in first place the references that follow
    decide. *)
Theorem isLabel_scans_code_references (s : SymbolInfo) :
  let xs := xrefs_to ea_size db (m_ea s) in
  (isLabel db s = true <->
   exists pre xr post,
     xs = pre ++ xr :: post /\
     Forall (fun x => iscode x = true /\ type x <> fl_JN) pre /\
     iscode xr = true /\ type xr = fl_JN) /\
  (forall x rest, xs = x :: rest -> iscode x = false -> isLabel db s = false) /\
  (forall x rest, xs = x :: rest -> iscode x = true -> type x = fl_JN ->
   isLabel db s = true) /\
  (forall x rest, xs = x :: rest -> iscode x = true -> type x <> fl_JN ->
   isLabel db s = isLabel_loop rest).
Proof.
  intros xs. unfold isLabel. fold xs. split; [apply isLabel_loop_true_iff|].
  repeat split; intros x rest E Hc; rewrite E; simpl; rewrite Hc; simpl.
  - reflexivity.
  - intros Ht. apply Z.eqb_eq in Ht. rewrite Ht. reflexivity.
  - intros Ht. apply Z.eqb_neq in Ht. rewrite Ht. reflexivity.
Qed.

End IsLabel.

(** C2 at two addresses of the sample database: one jumped to, then read;
    one read, then jumped to. *)
Lemma isLabel_sample :
  @isLabel headers64 sample_db loc_401010 = true /\
  @isLabel headers64 sample_db CreateFileW = false.
Proof.
  pose proof (@isLabel_scans_code_references headers64 sample_db loc_401010) as Hj.
  pose proof (@isLabel_scans_code_references headers64 sample_db CreateFileW) as Hd.
  cbv zeta in Hj, Hd.
  destruct Hj as (_ & _ & Hjump & _). destruct Hd as (_ & Hdata & _).
  split.
  - apply (Hjump jump_ref [read_ref]); reflexivity.
  - apply (Hdata read_ref [jump_ref]); reflexivity.
Defined.

(** C2, as the specification words it, fails where a call precedes a jump:
    the function entry [0x401000] of the sample database is called, then
    jumped to, and [isLabel] answers true although the first code reference
    is a call. *)
Lemma isLabel_first_reference_refuted :
  ~ first_reference_decides
      (xrefs_to (@ea_size headers64) sample_db (m_ea sub_401000))
      (@isLabel headers64 sample_db sub_401000).
Proof.
  intros [_ Hfalse].
  specialize (Hfalse call_ref [jump_ref] eq_refl).
  assert (E : @isLabel headers64 sample_db sub_401000 = false).
  { apply Hfalse. left. split; [reflexivity|]. left. reflexivity. }
  vm_compute in E. discriminate E.
Qed.

(** ** isImport *)

Section IsImport.
Context `{Headers}.
Variable db : ida_database.

(** Under the callback of [isImport] an enumeration ends with 0 exactly
    when an import matches. *)
Lemma enum_imports_callback (importName : string) (l : list import_t) :
  enum_imports (import_callback importName) l
  = if existsb (fun e => Z.eqb (import_callback importName e) 0) l then 0 else 1.
Proof.
  induction l as [|e l IH]; [reflexivity|].
  cbn [enum_imports existsb].
  assert (Hcb : import_callback importName e = 0 \/ import_callback importName e = 1).
  { unfold import_callback. destruct (imp_name e) as [n|]; [|right; reflexivity].
    destruct (String.eqb importName (c_str n)); [left|right]; reflexivity. }
  destruct Hcb as [-> | ->]; simpl; [reflexivity|exact IH].
Qed.

Lemma isImport_loop_true_iff (importName : string) (todo i : nat) :
  isImport_loop db importName todo i = true <->
  exists j l e name,
    (i <= j < i + todo)%nat /\
    nth_error (db_imports db) j = Some l /\
    In e l /\ imp_name e = Some name /\ importName = c_str name.
Proof.
  revert i. induction todo as [|k IH]; intros i; cbn [isImport_loop].
  - split; [discriminate|]. intros (j & _ & _ & _ & Hj & _). lia.
  - unfold enum_import_names.
    destruct (nth_error (db_imports db) i) as [l|] eqn:Hl.
    + rewrite enum_imports_callback.
      destruct (existsb _ l) eqn:Hex; simpl.
      * split; [intros _|reflexivity].
        apply existsb_exists in Hex. destruct Hex as (e & Hin & He).
        unfold import_callback in He.
        destruct (imp_name e) as [n|] eqn:Hn; [|discriminate].
        destruct (String.eqb_spec importName (c_str n)) as [E|_]; [|discriminate].
        exists i, l, e, n. repeat split; auto; lia.
      * rewrite IH. split.
        -- intros (j & l' & e & n & Hj & Hx). exists j, l', e, n. split; [lia|exact Hx].
        -- intros (j & l' & e & n & Hj & Hnth & Hin & Hn & E).
           destruct (Nat.eq_dec j i) as [->|Hne].
           ++ rewrite Hl in Hnth. injection Hnth as <-.
              assert (Hex' : existsb (fun e => import_callback importName e =? 0) l = true).
              { apply existsb_exists. exists e. split; [exact Hin|].
                unfold import_callback. rewrite Hn, E, String.eqb_refl. reflexivity. }
              congruence.
           ++ exists j, l', e, n. repeat split; auto; lia.
    + simpl. rewrite IH. split.
      * intros (j & l' & e & n & Hj & Hx). exists j, l', e, n. split; [lia|exact Hx].
      * intros (j & l' & e & n & Hj & Hnth & Hx).
        destruct (Nat.eq_dec j i) as [->|Hne]; [congruence|].
        exists j, l', e, n. repeat split; auto; try lia; apply Hx.
Qed.

(** [isImport] holds exactly when some import module lists the name. *)
Lemma isImport_true_iff (s : SymbolInfo) :
  let importName :=
    if (6 <? strlen (m_name s)) && String.eqb (substr (m_name s) 0 6) IMPORT_PREFIX
    then substr (m_name s) 6 (String.length (m_name s) - 6)
    else m_name s in
  isImport db s = true <->
  exists l e name,
    In l (db_imports db) /\ In e l /\
    imp_name e = Some name /\ importName = c_str name.
Proof.
  intros importName. unfold isImport. fold importName.
  rewrite isImport_loop_true_iff. unfold get_import_module_qty. rewrite Nat2Z.id.
  split.
  - intros (j & l & e & n & _ & Hnth & Hx). exists l, e, n.
    split; [apply (nth_error_In _ _ Hnth)|exact Hx].
  - intros (l & e & n & Hl & Hx). apply In_nth_error in Hl. destruct Hl as [j Hnth].
    exists j, l, e, n. split; [|split; [exact Hnth|exact Hx]].
    split; [lia|]. apply nth_error_Some. congruence.
Qed.

End IsImport.

(** ** isFunction and getFunctionSize *)

Section FunctionSize.
Context `{Headers}.
Variable db : ida_database.

Lemma isFunction_true_iff (s : SymbolInfo) :
  isFunction db s = true <->
  exists f, get_func ea_size db (m_ea s) = Some f /\ start_ea f = m_ea s.
Proof.
  unfold isFunction. destruct (get_func ea_size db (m_ea s)) as [f|].
  - rewrite Z.eqb_eq. split.
    + intros E. exists f. auto.
    + intros (g & Hg & E). inversion Hg. subst g. exact E.
  - split; [discriminate|]. intros (g & Hg & _). discriminate Hg.
Qed.

Lemma getFunctionSize_not_function (s : SymbolInfo) :
  isFunction db s = false ->
  getFunctionSize db s = Throw (SymbolIsNotAFunction (m_name s)).
Proof.
  unfold isFunction, getFunctionSize.
  destruct (get_func ea_size db (m_ea s)) as [f|]; [|reflexivity].
  intros E. rewrite E. reflexivity.
Qed.

Lemma getFunctionSize_function (s : SymbolInfo) (f : func_t) :
  get_func ea_size db (m_ea s) = Some f -> start_ea f = m_ea s ->
  getFunctionSize db s = Ok (to_uint64 (to_ea ea_size (end_ea f - start_ea f))).
Proof.
  unfold getFunctionSize. intros Hf Hs. rewrite Hf.
  apply Z.eqb_eq in Hs. rewrite Hs. reflexivity.
Qed.

Lemma function_size_exact (f : func_t) :
  0 <= start_ea f <= end_ea f -> end_ea f < 2 ^ ea_bits ea_size ->
  to_uint64 (to_ea ea_size (end_ea f - start_ea f)) = end_ea f - start_ea f.
Proof.
  intros Hr Hlt. unfold to_uint64, to_ea.
  rewrite (wrap_small (ea_bits ea_size)) by lia.
  apply wrap_small.
  assert (2 ^ ea_bits ea_size <= 2 ^ 64) by (destruct ea_size; simpl; lia).
  lia.
Qed.

(** C7: [getFunctionSize] throws [SymbolIsNotAFunction] exactly when
    [isFunction] is false, that is when no function starts at the address;
    it throws nothing else and is always defined; otherwise it returns
    [end_ea - start_ea] of the function that starts there (in [ea_t]
    arithmetic, which is the plain difference for a well-formed range). *)
Theorem getFunctionSize_throws_iff_not_function (s : SymbolInfo) :
  (getFunctionSize db s = Throw (SymbolIsNotAFunction (m_name s)) <->
   isFunction db s = false) /\
  (isFunction db s = false <->
   ~ exists f, get_func ea_size db (m_ea s) = Some f /\ start_ea f = m_ea s) /\
  (forall e, getFunctionSize db s = Throw e -> isFunction db s = false) /\
  getFunctionSize db s <> Undefined /\
  (forall f, get_func ea_size db (m_ea s) = Some f -> start_ea f = m_ea s ->
   isFunction db s = true /\
   getFunctionSize db s = Ok (to_uint64 (to_ea ea_size (end_ea f - start_ea f))) /\
   (0 <= start_ea f <= end_ea f -> end_ea f < 2 ^ ea_bits ea_size ->
    getFunctionSize db s = Ok (end_ea f - start_ea f))).
Proof.
  assert (Hthrow : forall e, getFunctionSize db s = Throw e -> isFunction db s = false).
  { intros e He. destruct (isFunction db s) eqn:Hfn; [|reflexivity].
    apply isFunction_true_iff in Hfn. destruct Hfn as (f & Hf & Hs).
    rewrite (getFunctionSize_function s f Hf Hs) in He. discriminate He. }
  split; [|split; [|split; [|split]]].
  - split; [apply Hthrow|apply getFunctionSize_not_function].
  - rewrite <- isFunction_true_iff. destruct (isFunction db s); split; congruence.
  - exact Hthrow.
  - destruct (isFunction db s) eqn:Hfn.
    + apply isFunction_true_iff in Hfn. destruct Hfn as (f & Hf & Hs).
      rewrite (getFunctionSize_function s f Hf Hs). discriminate.
    + rewrite (getFunctionSize_not_function s Hfn). discriminate.
  - intros f Hf Hs. split; [|split].
    + apply isFunction_true_iff. exists f. auto.
    + apply getFunctionSize_function; assumption.
    + intros Hr Hlt. rewrite (getFunctionSize_function s f Hf Hs).
      f_equal. apply function_size_exact; assumption.
Qed.

End FunctionSize.

(** C7 at the function of the sample database: 32 bytes at its entry, an
    exception sixteen bytes further. *)
Lemma getFunctionSize_sample :
  @getFunctionSize headers64 sample_db sub_401000 = Ok 32 /\
  @getFunctionSize headers64 sample_db loc_401010
  = Throw (SymbolIsNotAFunction "loc_401010").
Proof.
  split.
  - destruct (@getFunctionSize_throws_iff_not_function headers64 sample_db sub_401000)
      as (_ & _ & _ & _ & Hsize).
    destruct (Hsize sample_func eq_refl eq_refl) as (_ & _ & Hexact).
    apply Hexact; simpl; lia.
  - destruct (@getFunctionSize_throws_iff_not_function headers64 sample_db loc_401010)
      as ((_ & Hthrow) & _).
    apply Hthrow. reflexivity.
Defined.

(** ** isReadOnly *)

Section ReadOnly.
Context `{Headers}.
Variable db : ida_database.

Lemma isReadOnly_segment (s : SymbolInfo) (sg : segment_t) :
  getseg ea_size db (m_ea s) = Some sg ->
  isReadOnly db s
  = Ok (String.eqb (c_str (segm_name sg)) ".data"
        || (perm sg =? SEGPERM_READ) || (perm sg =? SEGPERM_READ + SEGPERM_EXEC)).
Proof.
  intros Hseg. unfold isReadOnly. rewrite Hseg. simpl.
  destruct (String.eqb_spec (c_str (segm_name sg)) ".data") as [E|E].
  - rewrite E. reflexivity.
  - rewrite andb_false_r. reflexivity.
Qed.

Lemma isReadOnly_no_segment (s : SymbolInfo) :
  getseg ea_size db (m_ea s) = None -> isReadOnly db s = Undefined.
Proof. intros Hseg. unfold isReadOnly. rewrite Hseg. reflexivity. Qed.

Lemma read_or_read_exec (p : Z) :
  0 <= p < 8 ->
  (p = SEGPERM_READ \/ p = SEGPERM_READ + SEGPERM_EXEC <->
   Z.land p SEGPERM_READ = SEGPERM_READ /\ Z.land p SEGPERM_WRITE = 0).
Proof.
  intros Hp. unfold SEGPERM_READ, SEGPERM_WRITE, SEGPERM_EXEC.
  assert (Hc : p = 0 \/ p = 1 \/ p = 2 \/ p = 3 \/ p = 4 \/ p = 5 \/ p = 6 \/ p = 7)
    by lia.
  destruct Hc as [-> | [-> | [-> | [-> | [-> | [-> | [-> | ->]]]]]]];
    vm_compute; split; intros; intuition (try discriminate; auto).
Qed.

(** C6: for an address inside a segment, [isReadOnly] returns, and returns
    true exactly when the segment is named [.data], whatever its permission
    bits, or its permission is [SEGPERM_READ] or [SEGPERM_READ +
    SEGPERM_EXEC]: the read bit without the write bit. *)
Theorem isReadOnly_iff_data_name_or_read_permission (s : SymbolInfo) (sg : segment_t) :
  getseg ea_size db (m_ea s) = Some sg ->
  exists b,
    isReadOnly db s = Ok b /\
    (b = true <->
     c_str (segm_name sg) = ".data" \/
     perm sg = SEGPERM_READ \/ perm sg = SEGPERM_READ + SEGPERM_EXEC) /\
    (c_str (segm_name sg) = ".data" -> b = true) /\
    (0 <= perm sg < 8 ->
     (b = true <->
      c_str (segm_name sg) = ".data" \/
      (Z.land (perm sg) SEGPERM_READ = SEGPERM_READ /\
       Z.land (perm sg) SEGPERM_WRITE = 0))).
Proof.
  intros Hseg. eexists. split; [apply isReadOnly_segment; exact Hseg|].
  assert (Hiff :
    String.eqb (c_str (segm_name sg)) ".data"
    || (perm sg =? SEGPERM_READ) || (perm sg =? SEGPERM_READ + SEGPERM_EXEC) = true <->
    c_str (segm_name sg) = ".data" \/
    perm sg = SEGPERM_READ \/ perm sg = SEGPERM_READ + SEGPERM_EXEC).
  { rewrite !orb_true_iff, String.eqb_eq, !Z.eqb_eq. tauto. }
  split; [exact Hiff|]. split.
  - intros E. apply Hiff. left. exact E.
  - intros Hp. rewrite Hiff, <- (read_or_read_exec (perm sg) Hp). tauto.
Qed.

(** C10: [isReadOnly] has a defined result exactly for an address inside a
    segment.  Outside every segment the null segment is read for its
    permission, and that is reached through the factory: a symbol [find]
    returns for a named address that no segment holds has no defined
    [isReadOnly]. *)
Theorem isReadOnly_defined_iff_in_segment :
  (forall s, isReadOnly db s = Undefined <-> getseg ea_size db (m_ea s) = None) /\
  (forall s, (exists b, isReadOnly db s = Ok b) <->
             (exists sg, getseg ea_size db (m_ea s) = Some sg)) /\
  (forall a s, find db a = Some s -> getseg ea_size db a = None ->
               isReadOnly db s = Undefined).
Proof.
  split; [|split].
  - intros s. split.
    + intros Hu. destruct (getseg ea_size db (m_ea s)) as [sg|] eqn:Hseg; [|reflexivity].
      rewrite (isReadOnly_segment s sg Hseg) in Hu. discriminate Hu.
    + apply isReadOnly_no_segment.
  - intros s. split.
    + intros [b Hb]. destruct (getseg ea_size db (m_ea s)) as [sg|] eqn:Hseg.
      * exists sg. reflexivity.
      * rewrite (isReadOnly_no_segment s Hseg) in Hb. discriminate Hb.
    + intros [sg Hseg]. eexists. apply isReadOnly_segment. exact Hseg.
  - intros a s Hfind Hseg. apply isReadOnly_no_segment.
    unfold find in Hfind. destruct (get_name ea_size db a) as [r name].
    destruct ((r =? 0) || (strlen name =? 0)); [discriminate|].
    inversion Hfind; subst s. simpl.
    unfold getseg in *. rewrite to_ea_to_uint64. exact Hseg.
Qed.

End ReadOnly.

(** C6 at the writable [.data] segment of the sample database. *)
Lemma isReadOnly_writable_data :
  perm data_seg = SEGPERM_READ + SEGPERM_WRITE /\
  @isReadOnly headers64 sample_db CreateFileW = Ok true.
Proof.
  split; [reflexivity|].
  destruct (@isReadOnly_iff_data_name_or_read_permission headers64 sample_db
              CreateFileW data_seg eq_refl) as (b & Hb & _ & Hname & _).
  rewrite Hb. f_equal. apply Hname. reflexivity.
Defined.

(** C10 at the named address [0x500000] of the sample database, which no
    segment holds. *)
Lemma isReadOnly_stray_undefined :
  @find headers64 sample_db 0x500000 = Some stray /\
  @isReadOnly headers64 sample_db stray = Undefined.
Proof.
  split; [reflexivity|].
  destruct (@isReadOnly_defined_iff_in_segment headers64 sample_db) as (_ & _ & Hfind).
  apply (Hfind 0x500000 stray); reflexivity.
Defined.

(** ** getName *)

Lemma append_cons (c : ascii) (p s : string) : String c p +:+ s = String c (p +:+ s).
Proof. reflexivity. Qed.

Lemma c_str_app_l (t rest : string) : c_str (t +:+ rest) = t +:+ rest -> c_str t = t.
Proof.
  induction t as [|c t IH]; rewrite ?append_cons; simpl; [reflexivity|].
  destruct (Ascii.eqb c NUL); [discriminate|].
  intros E. injection E as E'. f_equal. apply IH. exact E'.
Qed.

Lemma c_str_app_cstr (p s : string) : c_str p = p -> c_str (p +:+ s) = p +:+ c_str s.
Proof.
  induction p as [|c p IH]; rewrite ?append_cons; simpl; [reflexivity|].
  destruct (Ascii.eqb c NUL); [discriminate|].
  intros E. injection E as E'. f_equal. apply IH. exact E'.
Qed.

Lemma append_nil_l (s : string) : EmptyString +:+ s = s.
Proof. reflexivity. Qed.

Lemma append_nil_r (s : string) : s +:+ EmptyString = s.
Proof. induction s as [|c s IH]; [reflexivity|]. rewrite append_cons, IH. reflexivity. Qed.

Lemma substr_full (s : string) : substr s 0 (String.length s) = s.
Proof. unfold substr. induction s as [|c s IH]; simpl; [reflexivity|]. f_equal. exact IH. Qed.

Lemma substr_cons (c : ascii) (s : string) (n : nat) :
  substr (String c s) 0 (S n) = String c (substr s 0 n).
Proof. reflexivity. Qed.

Lemma substr_from_cons (c : ascii) (s : string) (n : nat) :
  substr_from (String c s) (S n) = substr_from s n.
Proof. reflexivity. Qed.

Lemma substr_from_0 (s : string) : substr_from s 0 = s.
Proof. unfold substr_from. rewrite Nat.sub_0_r. apply substr_full. Qed.

(** A string is cut at its first [c]: nothing is lost, the part kept has no
    [c], and what is dropped starts with [c]. *)
Lemma find_char_split (c : ascii) (s : string) :
  match find_char c s with
  | Some pp =>
      s = substr s 0 pp +:+ String c (substr_from s (pp + 1)) /\
      find_char c (substr s 0 pp) = None
  | None => True
  end.
Proof.
  induction s as [|d s IH]; [exact I|]. cbn [find_char].
  destruct (Ascii.eqb_spec d c) as [E|E].
  - subst d. split.
    + change (substr (String c s) 0 0) with EmptyString.
      rewrite append_nil_l. change (0 + 1)%nat with 1%nat.
      rewrite substr_from_cons, substr_from_0. reflexivity.
    + reflexivity.
  - destruct (find_char c s) as [pp|]; [|exact I].
    destruct IH as [IH1 IH2].
    change (S pp + 1)%nat with (S (pp + 1)).
    rewrite substr_cons, substr_from_cons, append_cons. split.
    + f_equal. exact IH1.
    + cbn [find_char]. destruct (Ascii.eqb_spec d c) as [E'|_]; [contradiction|].
      rewrite IH2. reflexivity.
Qed.

(** The cut is the only one: a part without [c], followed by nothing or by
    [c], is the part before the first [c]. *)
Lemma cut_unique (c : ascii) (t rest d : string) :
  d = t +:+ rest ->
  find_char c t = None ->
  (rest = EmptyString \/ exists r, rest = String c r) ->
  t = substr d 0 (match find_char c d with
                  | Some pp => pp
                  | None => String.length d
                  end).
Proof.
  revert d. induction t as [|a t IH]; intros d Hd Hnone Hrest.
  - rewrite append_nil_l in Hd. subst d.
    destruct Hrest as [->|[r ->]]; cbn [find_char].
    + reflexivity.
    + rewrite Ascii.eqb_refl. reflexivity.
  - rewrite append_cons in Hd. subst d. cbn [find_char] in Hnone |- *.
    destruct (Ascii.eqb a c); [discriminate|].
    destruct (find_char c t) eqn:Ht; [discriminate|].
    specialize (IH (t +:+ rest) eq_refl eq_refl Hrest).
    destruct (find_char c (t +:+ rest)) as [n|].
    + rewrite substr_cons. f_equal. exact IH.
    + cbn [String.length]. rewrite substr_cons. f_equal. exact IH.
Qed.

Section GetName.
Context `{Headers}.
Variable db : ida_database.

Lemma demangle_name_c_str (name : string) (mask : Z) :
  c_str (demangle_name db name mask) = demangle_name db name mask.
Proof. apply c_str_idem. Qed.

(** What [getName] keeps of a demangled name. *)
Lemma truncate_at_paren (d : string) :
  let pp := match find_char "("%char d with
            | Some pp => pp
            | None => String.length d
            end in
  exists rest,
    d = substr d 0 pp +:+ rest /\
    find_char "("%char (substr d 0 pp) = None /\
    (rest = EmptyString \/ exists r, rest = String "("%char r).
Proof.
  pose proof (find_char_split "("%char d) as Hs.
  destruct (find_char "("%char d) as [pp|] eqn:Hf; simpl.
  - destruct Hs as [Hs1 Hs2]. eexists. split; [exact Hs1|]. split; [exact Hs2|].
    right. eexists. reflexivity.
  - exists EmptyString. rewrite substr_full, append_nil_r. split; [reflexivity|].
    split; [exact Hf|]. left. reflexivity.
Qed.

Lemma getName_demangled_eq (s : SymbolInfo) :
  let d := demangle_name db (c_str (pname_before_demangling db s)) MNG_MASK in
  let pp := match find_char "("%char d with
            | Some pp => pp
            | None => String.length d
            end in
  d <> EmptyString ->
  getName db s
  = if isImport db s then IMPORT_PREFIX +:+ substr d 0 pp else substr d 0 pp.
Proof.
  intros d pp Hd. unfold getName. fold d.
  destruct (String.eqb_spec d EmptyString) as [E|_]; [contradiction|]. simpl. fold pp.
  destruct (truncate_at_paren d) as (rest & Hsplit & _). fold pp in Hsplit.
  assert (Hc : c_str (substr d 0 pp) = substr d 0 pp).
  { apply (c_str_app_l _ rest). rewrite <- Hsplit. apply demangle_name_c_str. }
  rewrite Hc. reflexivity.
Qed.

(** C8, as the code has it: when the name left by the cleanup step
    demangles to [d], [getName] returns [d] cut at its first opening
    parenthesis (all of [d] when it has none), with [IMPORT_PREFIX] in
    front when [isImport] holds.  That is the cut at the parameter list
    whenever the qualified name before the parameter list holds no
    parenthesis of its own. *)
Theorem getName_demangled_truncated_at_paren (s : SymbolInfo) (d : string) :
  demangle_name db (c_str (pname_before_demangling db s)) MNG_MASK = d ->
  d <> EmptyString ->
  exists t rest,
    d = t +:+ rest /\
    find_char "("%char t = None /\
    (rest = EmptyString \/ exists r, rest = String "("%char r) /\
    getName db s = (if isImport db s then IMPORT_PREFIX +:+ t else t) /\
    (isImport db s = true -> getName db s = IMPORT_PREFIX +:+ t) /\
    (forall name, cut_at_parameter_list d name -> find_char "("%char name = None ->
                  t = name).
Proof.
  intros Hd Hne. subst d.
  destruct (truncate_at_paren
              (demangle_name db (c_str (pname_before_demangling db s)) MNG_MASK))
    as (rest & Hsplit & Hnone & Hrest).
  eexists. exists rest. split; [exact Hsplit|]. split; [exact Hnone|].
  split; [exact Hrest|].
  pose proof (getName_demangled_eq s Hne) as Hg. simpl in Hg.
  split; [exact Hg|]. split; [intros Hi; rewrite Hg, Hi; reflexivity|].
  intros name (params & Hcut & _) Hname.
  rewrite (cut_unique "("%char name (String "("%char (params +:+ ")")) _ Hcut Hname)
    by (right; eexists; reflexivity).
  reflexivity.
Qed.

(** C3, as the code has it: a raw name that starts with [sub_] is not
    cleaned, and demangling is still tried on it; when the demangler has
    nothing for it, [getName] returns the raw name as a C string (the raw
    name itself when it holds no NUL), behind [IMPORT_PREFIX] when
    [isImport] holds. *)
Theorem getName_placeholder_not_cleaned (s : SymbolInfo) :
  substr (m_name s) 0 4 = "sub_" ->
  demangle_name db (c_str (m_name s)) MNG_MASK = EmptyString ->
  pname_before_demangling db s = c_str (m_name s) /\
  getName db s
  = (if isImport db s then IMPORT_PREFIX +:+ c_str (m_name s) else c_str (m_name s)) /\
  (c_str (m_name s) = m_name s ->
   getName db s = if isImport db s then IMPORT_PREFIX +:+ m_name s else m_name s).
Proof.
  intros Hsub Hdem.
  assert (Hp : pname_before_demangling db s = c_str (m_name s)).
  { unfold pname_before_demangling. rewrite Hsub. reflexivity. }
  assert (Hg : getName db s
               = if isImport db s then IMPORT_PREFIX +:+ c_str (m_name s)
                 else c_str (m_name s)).
  { unfold getName. rewrite Hp, !c_str_idem, Hdem. cbn [String.eqb negb].
    rewrite c_str_idem. reflexivity. }
  split; [exact Hp|]. split; [exact Hg|].
  intros Hc. rewrite Hg, Hc. reflexivity.
Qed.

End GetName.

(** C8 at the two mangled names of the sample database, the second an
    import. *)
Lemma getName_Foo_bar :
  @getName headers64 sample_db Foo_bar = "Foo::bar" /\
  @getName headers64 sample_db Foo_baz = "__imp_Foo::baz".
Proof.
  split.
  - destruct (@getName_demangled_truncated_at_paren headers64 sample_db Foo_bar
                "Foo::bar(int)" eq_refl)
      as (t & rest & _ & _ & _ & Hg & _ & Hcut); [discriminate|].
    rewrite Hg, (Hcut "Foo::bar"); [reflexivity| |reflexivity].
    exists "int". split; reflexivity.
  - destruct (@getName_demangled_truncated_at_paren headers64 sample_db Foo_baz
                "Foo::baz(void)" eq_refl)
      as (t & rest & _ & _ & _ & _ & Hg & Hcut); [discriminate|].
    rewrite (Hg eq_refl), (Hcut "Foo::baz"); [reflexivity| |reflexivity].
    exists "void". split; reflexivity.
Defined.

(** C8, as the specification words it, fails where the demangled name has
    a parenthesis before its parameter list: the call operator of [Foo]
    demangles to [Foo::operator()(int)], whose parameter list opens at the
    second parenthesis, and [getName] returns [Foo::operator]. *)
Lemma getName_operator_call_refuted :
  @getName headers64 operator_db Foo_call = "Foo::operator" /\
  cut_at_parameter_list "Foo::operator()(int)" "Foo::operator()" /\
  ~ @demangled_cut_at_parameters headers64 operator_db Foo_call.
Proof.
  assert (Hcut : cut_at_parameter_list "Foo::operator()(int)" "Foo::operator()")
    by (exists "int"; split; reflexivity).
  split; [reflexivity|]. split; [exact Hcut|].
  intros Hclaim.
  specialize (Hclaim "Foo::operator()(int)" "Foo::operator()" eq_refl).
  assert (E : @getName headers64 operator_db Foo_call = "Foo::operator()").
  { apply Hclaim; [discriminate|exact Hcut]. }
  vm_compute in E. discriminate E.
Qed.

(** C3 at [sub_401000] of the sample database, whose demangler has nothing
    for it. *)
Lemma getName_sub_401000 :
  @getName headers64 sample_db sub_401000 = "sub_401000".
Proof.
  destruct (@getName_placeholder_not_cleaned headers64 sample_db sub_401000
              eq_refl eq_refl) as (_ & _ & Hg).
  exact (Hg eq_refl).
Defined.

(** C3, as the specification words it, fails under a demangler that
    answers on [sub_401000]: the name is not an import, and [getName]
    returns the demangled [Foo::bar]. *)
Lemma getName_placeholder_demangled :
  @getName headers64 eager_demangler_db sub_401000 = "Foo::bar" /\
  ~ @placeholder_kept headers64 eager_demangler_db sub_401000.
Proof.
  split; [reflexivity|].
  intros Hkept. specialize (Hkept eq_refl). vm_compute in Hkept. discriminate Hkept.
Qed.

(** ** findStackVar *)

Section FindStackVar.
Context `{Headers}.
Variable db : ida_database.

(** The normalized offset is the difference taken once in [ea_t]. *)
Lemma sofset_difference (pfn : func_t) (m : member_t) :
  sofset pfn m = to_ea ea_size (get_soff m - (frsize pfn + frregs pfn)).
Proof.
  unfold sofset, to_ea, wrap. apply Zminus_mod_idemp_r.
Qed.

(** The test of the loop, as a proposition. *)
Lemma stack_var_test_iff (pfn : func_t) (m : member_t) (offset addrSize : Z) :
  (sofset pfn m =? offset)
  || ((addrSize =? 4) && (to_uint32 (sofset pfn m) =? to_uint32 offset)) = true <->
  sofset pfn m = offset \/
  (addrSize = 4 /\ sofset pfn m mod 2 ^ 32 = offset mod 2 ^ 32).
Proof.
  rewrite orb_true_iff, andb_true_iff, !Z.eqb_eq. unfold to_uint32, wrap. tauto.
Qed.

Lemma after_first_dot (name : string) :
  match find_char "."%char name with
  | Some pp =>
      exists prefix,
        name = prefix +:+ "." +:+ substr_from name (pp + 1) /\
        find_char "."%char prefix = None
  | None => True
  end.
Proof.
  pose proof (find_char_split "."%char name) as Hs.
  destruct (find_char "."%char name) as [pp|]; [|exact I].
  destruct Hs as [Hs1 Hs2]. exists (substr name 0 pp). split; [|exact Hs2].
  exact Hs1.
Qed.

Lemma findStackVar_loop_first_match (pfn : func_t) (ms : list member_t)
    (offset addrSize : Z) :
  let matches (m : member_t) : Prop :=
    sofset pfn m = offset \/
    (addrSize = 4 /\ sofset pfn m mod 2 ^ 32 = offset mod 2 ^ 32) in
  match findStackVar_loop db (Some pfn) ms offset addrSize with
  | Ok (Some name) =>
      exists i m,
        nth_error ms i = Some m /\ matches m /\
        (forall j m', (j < i)%nat -> nth_error ms j = Some m' -> ~ matches m') /\
        ((find_char "."%char (get_struc_name db (id m)) = None /\
          name = get_struc_name db (id m)) \/
         (exists prefix,
            get_struc_name db (id m) = prefix +:+ "." +:+ name /\
            find_char "."%char prefix = None))
  | Ok None => forall m, In m ms -> ~ matches m
  | Throw _ | Undefined => False
  end.
Proof.
  intros matches. induction ms as [|m rest IH]; cbn [findStackVar_loop].
  - intros m [].
  - unfold get_struc_name at 1 2 3. rewrite c_str_idem. fold (get_struc_name db (id m)).
    destruct ((sofset pfn m =? offset)
              || ((addrSize =? 4)
                  && (to_uint32 (sofset pfn m) =? to_uint32 offset))) eqn:Htest.
    + apply stack_var_test_iff in Htest.
      pose proof (after_first_dot (get_struc_name db (id m))) as Hdot.
      destruct (find_char "."%char (get_struc_name db (id m))) as [pp|] eqn:Hf.
      * exists O, m. split; [reflexivity|]. split; [exact Htest|].
        split; [intros j m' Hj; lia|]. right. exact Hdot.
      * exists O, m. split; [reflexivity|]. split; [exact Htest|].
        split; [intros j m' Hj; lia|]. left. split; [exact Hf|reflexivity].
    + assert (Hno : ~ matches m).
      { intros Hm. apply stack_var_test_iff in Hm. congruence. }
      destruct (findStackVar_loop db (Some pfn) rest offset addrSize) as [[name|]| |].
      * destruct IH as (i & m0 & Hi & Hm0 & Hfirst & Hname).
        exists (S i), m0. split; [exact Hi|]. split; [exact Hm0|].
        split; [|exact Hname].
        intros [|j] m' Hj Hnth.
        -- simpl in Hnth. inversion Hnth; subst m'. exact Hno.
        -- simpl in Hnth. apply (Hfirst j m'); [lia|exact Hnth].
      * intros m' [E|Hin]; [subst m'; exact Hno|apply IH; exact Hin].
      * exact IH.
      * exact IH.
Qed.

(** C1: for a function with a frame, [findStackVar] returns, and what it
    returns is settled by the first frame member, in declared order, whose
    normalized offset [sofset = get_soff - (frsize + frregs)] (taken in
    [ea_t]) equals the offset asked for (a [uint64_t]), or, when the address
    width is 4, agrees with it on the low 32 bits: the name of that member
    after its first dot (the whole name when it has no dot), and nothing
    when no member matches. *)
Theorem findStackVar_first_match (fs : FunctionSymbolInfo) (offset addrSize : Z)
    (pfn : func_t) (frame : struc_t) :
  get_func ea_size db (getAddress (m_symbol fs)) = Some pfn ->
  get_frame db (Some pfn) = Some frame ->
  let matches (m : member_t) : Prop :=
    sofset pfn m = to_uint64 offset \/
    (to_uint32 addrSize = 4 /\ sofset pfn m mod 2 ^ 32 = to_uint64 offset mod 2 ^ 32) in
  (forall m, sofset pfn m = to_ea ea_size (get_soff m - (frsize pfn + frregs pfn))) /\
  match findStackVar db fs offset addrSize with
  | Ok (Some name) =>
      exists i m,
        nth_error (members frame) i = Some m /\ matches m /\
        (forall j m', (j < i)%nat -> nth_error (members frame) j = Some m' ->
                      ~ matches m') /\
        ((find_char "."%char (get_struc_name db (id m)) = None /\
          name = get_struc_name db (id m)) \/
         (exists prefix,
            get_struc_name db (id m) = prefix +:+ "." +:+ name /\
            find_char "."%char prefix = None))
  | Ok None => forall m, In m (members frame) -> ~ matches m
  | Throw _ | Undefined => False
  end.
Proof.
  intros Hfunc Hframe matches. split; [apply sofset_difference|].
  unfold findStackVar. rewrite Hfunc, Hframe.
  apply findStackVar_loop_first_match.
Qed.

End FindStackVar.

(** C1 at the frame of the sample database: offset -8 with 8-byte addresses
    is [var_8], the second member; the same slot is found from the 32-bit
    offset [0xFFFFFFF8] when addresses are 4 bytes wide, and not when they
    are 8 bytes wide. *)
Lemma findStackVar_var_8 :
  @findStackVar headers64 sample_db fn_401000 (-8) 8 = Ok (Some "var_8") /\
  @findStackVar headers64 sample_db fn_401000 0xFFFFFFF8 4 = Ok (Some "var_8") /\
  @findStackVar headers64 sample_db fn_401000 0xFFFFFFF8 8 = Ok None /\
  exists i m,
    nth_error (members sample_frame) i = Some m /\
    (@sofset headers64 sample_func m = to_uint64 (-8) \/
     (to_uint32 8 = 4 /\
      @sofset headers64 sample_func m mod 2 ^ 32 = to_uint64 (-8) mod 2 ^ 32)) /\
    (forall j m', (j < i)%nat -> nth_error (members sample_frame) j = Some m' ->
                  ~ (@sofset headers64 sample_func m' = to_uint64 (-8) \/
                     (to_uint32 8 = 4 /\
                      @sofset headers64 sample_func m' mod 2 ^ 32
                      = to_uint64 (-8) mod 2 ^ 32))) /\
    ((find_char "."%char (get_struc_name sample_db (id m)) = None /\
      "var_8" = get_struc_name sample_db (id m)) \/
     (exists prefix,
        get_struc_name sample_db (id m) = prefix +:+ "." +:+ "var_8" /\
        find_char "."%char prefix = None)).
Proof.
  split; [reflexivity|]. split; [reflexivity|]. split; [reflexivity|].
  exact (proj2 (@findStackVar_first_match headers64 sample_db fn_401000 (-8) 8
                  sample_func sample_frame eq_refl eq_refl)).
Defined.

(** In a build with a 32-bit [ea_t] the normalized offset is a 32-bit
    value: the 64-bit offset -8 finds [var_8] only when addresses are 4
    bytes wide. *)
Example findStackVar_ea32 :
  @findStackVar headers32 sample_db fn_401000 (-8) 8 = Ok None /\
  @findStackVar headers32 sample_db fn_401000 (-8) 4 = Ok (Some "var_8").
Proof. split; reflexivity. Qed.

(** ** The netnode store *)

Lemma strlen_zero (s : string) : (strlen s =? 0) = String.eqb s EmptyString.
Proof. destruct s; reflexivity. Qed.

Lemma node_value_open (st : netnodes) (k k' : string) (create : bool) :
  node_value (netnode_open st k create) k' = node_value st k'.
Proof.
  unfold netnode_open, node_value.
  destruct (st !! k) as [v|] eqn:Hk; [reflexivity|].
  destruct create; [|reflexivity].
  destruct (decide (k = k')) as [<-|Hne].
  - rewrite lookup_insert_eq, Hk. reflexivity.
  - rewrite lookup_insert_ne by exact Hne. reflexivity.
Qed.

Lemma node_value_set (st : netnodes) (k k' v : string) :
  node_value (netnode_set st k v) k'
  = if decide (k = k') then Some v else node_value st k'.
Proof.
  unfold netnode_set, node_value.
  destruct (decide (k = k')) as [<-|Hne].
  - rewrite lookup_insert_eq. reflexivity.
  - rewrite lookup_insert_ne by exact Hne. reflexivity.
Qed.

Lemma netnode_valstr_node_value (st : netnodes) (k : string) :
  netnode_valstr st k
  = match node_value st k with
    | Some v => (strlen v, v)
    | None => (-1, EmptyString)
    end.
Proof.
  unfold netnode_valstr, node_value. destruct (st !! k) as [[v|]|]; reflexivity.
Qed.

(** Opening a node that exists changes nothing, and a second write to a
    node replaces the first. *)
Lemma netnode_set_open_set (st : netnodes) (k v1 v2 : string) :
  netnode_set (netnode_open (netnode_set st k v1) k true) k v2 = netnode_set st k v2.
Proof.
  unfold netnode_open, netnode_set. rewrite lookup_insert_eq.
  apply insert_insert_eq.
Qed.

Lemma netnode_set_open (st : netnodes) (k v : string) :
  netnode_set (netnode_open st k true) k v = netnode_set st k v.
Proof.
  unfold netnode_open, netnode_set. destruct (st !! k); [reflexivity|].
  apply insert_insert_eq.
Qed.

Section Store.
Context `{Headers}.
Context {TypeInfo : Type} `{TypeInfoFactory TypeInfo}.
Context {MemoryLocation : Type}.

Lemma findRegVar_node_value (fs : FunctionSymbolInfo) (name : string) (st : netnodes) :
  fst (findRegVar fs name st)
  = match node_value st (c_str (regvar_node fs name)) with
    | Some v => if String.eqb v EmptyString then None else Some (c_str v)
    | None => None
    end.
Proof.
  unfold findRegVar. rewrite netnode_valstr_node_value, node_value_open.
  destruct (node_value st (c_str (regvar_node fs name))) as [v|].
  - rewrite strlen_zero. destruct (String.eqb v EmptyString); reflexivity.
  - reflexivity.
Qed.

Lemma findSymbolType_node_value (fs : FunctionSymbolInfo) (name : string)
    (st : netnodes) :
  fst (findSymbolType fs name st)
  = match node_value st (c_str (type_node fs name)) with
    | Some v => if String.eqb v EmptyString then Ok None else build_decl (c_str v)
    | None => Ok None
    end.
Proof.
  unfold findSymbolType. rewrite netnode_valstr_node_value, node_value_open.
  destruct (node_value st (c_str (type_node fs name))) as [v|].
  - rewrite strlen_zero. destruct (String.eqb v EmptyString); reflexivity.
  - reflexivity.
Qed.

Lemma node_value_saveRegVar (fs : FunctionSymbolInfo) (name value : string)
    (st : netnodes) (k : string) :
  node_value (saveRegVar fs name value st) k
  = if decide (c_str (regvar_node fs name) = k) then Some (c_str value)
    else node_value st k.
Proof.
  unfold saveRegVar. rewrite node_value_set, node_value_open. reflexivity.
Qed.

Lemma node_value_saveSymbolType (fs : FunctionSymbolInfo) (name : string)
    (newType : TypeInfo) (loc : MemoryLocation) (st : netnodes) (k : string) :
  node_value (saveSymbolType fs name newType loc st) k
  = if decide (c_str (type_node fs name) = k)
    then Some (c_str (TypeInfo_getName newType))
    else node_value st k.
Proof.
  unfold saveSymbolType. rewrite node_value_set, node_value_open. reflexivity.
Qed.

Lemma node_value_findRegVar (fs : FunctionSymbolInfo) (name : string)
    (st : netnodes) (k : string) :
  node_value (snd (findRegVar fs name st)) k = node_value st k.
Proof.
  unfold findRegVar.
  destruct (netnode_valstr _ _) as [size res].
  destruct (strlen res =? 0); simpl; apply node_value_open.
Qed.

Lemma node_value_findSymbolType (fs : FunctionSymbolInfo) (name : string)
    (st : netnodes) (k : string) :
  node_value (snd (findSymbolType fs name st)) k = node_value st k.
Proof.
  unfold findSymbolType.
  destruct (netnode_valstr _ _) as [size res].
  destruct (strlen res =? 0); simpl; apply node_value_open.
Qed.

(** What is read back after a write, whatever the value. *)
Lemma findRegVar_saveRegVar (fs : FunctionSymbolInfo) (name value : string)
    (st : netnodes) :
  fst (findRegVar fs name (saveRegVar fs name value st))
  = if String.eqb (c_str value) EmptyString then None else Some (c_str value).
Proof.
  rewrite findRegVar_node_value, node_value_saveRegVar.
  destruct (decide _) as [_|Hne]; [|contradiction].
  rewrite c_str_idem. reflexivity.
Qed.

Lemma findSymbolType_saveSymbolType (fs : FunctionSymbolInfo) (name : string)
    (newType : TypeInfo) (loc : MemoryLocation) (st : netnodes) :
  fst (findSymbolType fs name (saveSymbolType fs name newType loc st))
  = if String.eqb (c_str (TypeInfo_getName newType)) EmptyString then Ok None
    else build_decl (c_str (TypeInfo_getName newType)).
Proof.
  rewrite findSymbolType_node_value, node_value_saveSymbolType.
  destruct (decide _) as [_|Hne]; [|contradiction].
  rewrite c_str_idem. reflexivity.
Qed.

End Store.

(** ** Node names do not collide *)

Lemma append_inj_l (p a b : string) : p +:+ a = p +:+ b -> a = b.
Proof.
  induction p as [|c p IH]; [intros E; exact E|].
  rewrite !append_cons. intros E. injection E as E. apply IH. exact E.
Qed.

Lemma dotted_inj (h1 h2 x1 x2 : string) :
  find_char "."%char h1 = None -> find_char "."%char h2 = None ->
  h1 +:+ String "."%char x1 = h2 +:+ String "."%char x2 ->
  h1 = h2 /\ x1 = x2.
Proof.
  intros H1 H2 E.
  assert (Hh : h1 = h2).
  { rewrite (cut_unique "."%char h1 (String "."%char x1) _ eq_refl H1)
      by (right; eexists; reflexivity).
    rewrite (cut_unique "."%char h2 (String "."%char x2) _ eq_refl H2)
      by (right; eexists; reflexivity).
    rewrite E. reflexivity. }
  split; [exact Hh|]. subst h2. apply append_inj_l in E. injection E as E. exact E.
Qed.

Section NodeNames.
Context `{Headers}.

Lemma c_str_regvar_node (fs : FunctionSymbolInfo) (name : string) :
  plain (to_hex (getAddress (m_symbol fs))) ->
  c_str (regvar_node fs name)
  = "$ " +:+ to_hex (getAddress (m_symbol fs)) +:+ String "."%char ("yagireg." +:+ c_str name).
Proof.
  intros [Hc _]. unfold regvar_node.
  rewrite (c_str_app_cstr "$ ") by reflexivity.
  rewrite (c_str_app_cstr _ _ Hc).
  rewrite (c_str_app_cstr ".yagireg.") by reflexivity.
  reflexivity.
Qed.

Lemma c_str_type_node (fs : FunctionSymbolInfo) (name : string) :
  plain (to_hex (getAddress (m_symbol fs))) ->
  c_str (type_node fs name)
  = "$ " +:+ to_hex (getAddress (m_symbol fs)) +:+ String "."%char ("yagitype." +:+ c_str name).
Proof.
  intros [Hc _]. unfold type_node.
  rewrite (c_str_app_cstr "$ ") by reflexivity.
  rewrite (c_str_app_cstr _ _ Hc).
  rewrite (c_str_app_cstr ".yagitype.") by reflexivity.
  reflexivity.
Qed.

(** Two register-variable nodes are one only for the same rendered address
    and the same name. *)
Lemma regvar_node_inj (fs fs' : FunctionSymbolInfo) (name name' : string) :
  plain (to_hex (getAddress (m_symbol fs))) ->
  plain (to_hex (getAddress (m_symbol fs'))) ->
  c_str (regvar_node fs' name') = c_str (regvar_node fs name) ->
  to_hex (getAddress (m_symbol fs')) = to_hex (getAddress (m_symbol fs)) /\
  c_str name' = c_str name.
Proof.
  intros Hp Hp' E.
  rewrite (c_str_regvar_node fs name Hp), (c_str_regvar_node fs' name' Hp') in E.
  apply append_inj_l in E.
  destruct (dotted_inj _ _ _ _ (proj2 Hp') (proj2 Hp) E) as [Hh Hx].
  split; [exact Hh|]. apply (append_inj_l "yagireg."). exact Hx.
Qed.

(** A type node is never a register-variable node. *)
Lemma type_node_not_regvar_node (fs fs' : FunctionSymbolInfo) (name name' : string) :
  plain (to_hex (getAddress (m_symbol fs))) ->
  plain (to_hex (getAddress (m_symbol fs'))) ->
  c_str (type_node fs' name') <> c_str (regvar_node fs name).
Proof.
  intros Hp Hp' E.
  rewrite (c_str_regvar_node fs name Hp), (c_str_type_node fs' name' Hp') in E.
  apply append_inj_l in E.
  destruct (dotted_inj _ _ _ _ (proj2 Hp') (proj2 Hp) E) as [_ Hx].
  rewrite !append_cons in Hx. discriminate Hx.
Qed.

End NodeNames.

(** ** Register variables and symbol types *)

Section Persisted.
Context `{Headers}.
Context {TypeInfo : Type} `{TypeInfoFactory TypeInfo}.
Context {MemoryLocation : Type}.

(** A node without a value stays so under every call that does not save a
    register variable of that name for that rendered address. *)
Lemma unwritten_regvar_stays_unset (fs : FunctionSymbolInfo) (name : string)
    (history : list (FunctionSymbolInfo * @call TypeInfo MemoryLocation))
    (st : netnodes) :
  plain (to_hex (getAddress (m_symbol fs))) ->
  (forall fs' c, In (fs', c) history -> plain (to_hex (getAddress (m_symbol fs')))) ->
  (forall fs' name' value, In (fs', SaveRegVar name' value) history ->
     to_hex (getAddress (m_symbol fs')) = to_hex (getAddress (m_symbol fs)) ->
     c_str name' <> c_str name) ->
  node_value st (c_str (regvar_node fs name)) = None ->
  node_value (perform_all history st) (c_str (regvar_node fs name)) = None.
Proof.
  intros Hp. revert st.
  induction history as [|[fs' c] history IH]; intros st Hplain Hnever Hst.
  - exact Hst.
  - unfold perform_all. cbn [fold_left]. apply IH.
    + intros fs'' c' Hin. apply (Hplain fs'' c'). right. exact Hin.
    + intros fs'' name' value Hin. apply (Hnever fs'' name' value). right. exact Hin.
    + assert (Hp' : plain (to_hex (getAddress (m_symbol fs')))).
      { apply (Hplain fs' c). left. reflexivity. }
      destruct c as [n|n v|n t loc|n]; cbn [perform].
      * rewrite node_value_findRegVar. exact Hst.
      * rewrite node_value_saveRegVar.
        destruct (decide _) as [E|_]; [|exact Hst].
        destruct (regvar_node_inj fs fs' name n Hp Hp' E) as [Hh Hn].
        exfalso. apply (Hnever fs' n v); [left; reflexivity|exact Hh|exact Hn].
      * rewrite node_value_saveSymbolType.
        destruct (decide _) as [E|_]; [|exact Hst].
        exfalso. exact (type_node_not_regvar_node fs fs' name n Hp Hp' E).
      * rewrite node_value_findSymbolType. exact Hst.
Qed.

(** C4, as the code has it: [saveRegVar] then [findRegVar] on the same
    function and name returns the value saved when that value is a
    non-empty C string (in general the C string of the value, and nothing
    when that is empty); and [findRegVar] returns nothing for a name that
    no call of the history saved, from the empty store on. *)
Theorem regvar_round_trip_nonempty (fs : FunctionSymbolInfo) (name : string)
    (st : netnodes) :
  (forall value, value <> EmptyString -> c_str value = value ->
     regvar_round_trip fs name value st) /\
  (forall value,
     fst (findRegVar fs name (saveRegVar fs name value st))
     = if String.eqb (c_str value) EmptyString then None else Some (c_str value)) /\
  (forall history : list (FunctionSymbolInfo * @call TypeInfo MemoryLocation),
     plain (to_hex (getAddress (m_symbol fs))) ->
     (forall fs' c, In (fs', c) history ->
        plain (to_hex (getAddress (m_symbol fs')))) ->
     (forall fs' name' value, In (fs', SaveRegVar name' value) history ->
        to_hex (getAddress (m_symbol fs')) = to_hex (getAddress (m_symbol fs)) ->
        c_str name' <> c_str name) ->
     fst (findRegVar fs name (perform_all history ∅)) = None).
Proof.
  split; [|split].
  - intros value Hne Hc. unfold regvar_round_trip.
    rewrite findRegVar_saveRegVar, Hc.
    destruct (String.eqb_spec value EmptyString) as [E|_]; [contradiction|reflexivity].
  - intros value. apply findRegVar_saveRegVar.
  - intros history Hp Hplain Hnever.
    rewrite findRegVar_node_value.
    rewrite (unwritten_regvar_stays_unset fs name history ∅ Hp Hplain Hnever).
    + reflexivity.
    + unfold node_value. rewrite lookup_empty. reflexivity.
Qed.

(** The second of two writes to one name leaves the store the first never
    touched. *)
Lemma saveSymbolType_twice (fs : FunctionSymbolInfo) (name : string)
    (T1 T2 : TypeInfo) (loc loc' : MemoryLocation) (st : netnodes) :
  saveSymbolType fs name T2 loc' (saveSymbolType fs name T1 loc st)
  = saveSymbolType fs name T2 loc' st.
Proof. unfold saveSymbolType. rewrite netnode_set_open_set. reflexivity. Qed.

(** C5, as the code has it: after two [saveSymbolType] on one name the
    store is the store after the second alone, the node holds the C string
    of the declaration of [T2], and [findSymbolType] returns what the
    parser builds from it, or nothing when it is empty; [T1] plays no
    part.  The descriptor has the declaration of [T2] whenever that
    declaration is not empty and the parser gives it back. *)
Theorem symbol_type_last_writer_wins (fs : FunctionSymbolInfo) (name : string)
    (T1 T2 : TypeInfo) (loc loc' : MemoryLocation) (st : netnodes) :
  let st2 := saveSymbolType fs name T2 loc' (saveSymbolType fs name T1 loc st) in
  st2 = saveSymbolType fs name T2 loc' st /\
  node_value st2 (c_str (type_node fs name)) = Some (c_str (TypeInfo_getName T2)) /\
  fst (findSymbolType fs name st2)
  = (if String.eqb (c_str (TypeInfo_getName T2)) EmptyString then Ok None
     else build_decl (c_str (TypeInfo_getName T2))) /\
  (forall T,
     c_str (TypeInfo_getName T2) <> EmptyString ->
     build_decl (c_str (TypeInfo_getName T2)) = Ok (Some T) ->
     TypeInfo_getName T = TypeInfo_getName T2 ->
     last_type_returned fs name T1 T2 loc loc' st).
Proof.
  intros st2.
  assert (Hst : st2 = saveSymbolType fs name T2 loc' st)
    by apply saveSymbolType_twice.
  assert (Hfind : fst (findSymbolType fs name st2)
                  = if String.eqb (c_str (TypeInfo_getName T2)) EmptyString then Ok None
                    else build_decl (c_str (TypeInfo_getName T2))).
  { rewrite Hst. apply findSymbolType_saveSymbolType. }
  split; [exact Hst|]. split; [|split; [exact Hfind|]].
  - rewrite Hst, node_value_saveSymbolType.
    destruct (decide _) as [_|Hne]; [reflexivity|contradiction].
  - intros T Hne Hparse Hname. exists T. split; [|exact Hname].
    fold st2. rewrite Hfind.
    destruct (String.eqb_spec (c_str (TypeInfo_getName T2)) EmptyString) as [E|_];
      [contradiction|exact Hparse].
Qed.

(** C9: a saved empty value reads as a key never written.  After
    [saveRegVar] of the empty string [findRegVar] returns nothing, as it
    does on the empty store; after [saveSymbolType] of a type whose
    declaration is empty [findSymbolType] returns nothing; and whatever
    [findRegVar] returns after a [saveRegVar] is not empty, nor was the
    value saved. *)
Theorem empty_value_reads_as_unset (fs : FunctionSymbolInfo) (name : string)
    (st : netnodes) :
  fst (findRegVar fs name (saveRegVar fs name EmptyString st)) = None /\
  fst (findRegVar fs name (saveRegVar fs name EmptyString st))
  = fst (findRegVar fs name ∅) /\
  (forall (T : TypeInfo) (loc : MemoryLocation), TypeInfo_getName T = EmptyString ->
     fst (findSymbolType fs name (saveSymbolType fs name T loc st)) = Ok None /\
     fst (findSymbolType fs name (saveSymbolType fs name T loc st))
     = fst (findSymbolType fs name ∅)) /\
  (forall value v,
     fst (findRegVar fs name (saveRegVar fs name value st)) = Some v ->
     v <> EmptyString /\ value <> EmptyString).
Proof.
  assert (Hempty : forall k, node_value (∅ : netnodes) k = None).
  { intros k. unfold node_value. rewrite lookup_empty. reflexivity. }
  split; [|split; [|split]].
  - rewrite findRegVar_saveRegVar. reflexivity.
  - rewrite findRegVar_saveRegVar, findRegVar_node_value, Hempty. reflexivity.
  - intros T loc HT.
    rewrite findSymbolType_saveSymbolType, findSymbolType_node_value, Hempty, HT.
    split; reflexivity.
  - intros value v. rewrite findRegVar_saveRegVar.
    destruct (String.eqb_spec (c_str value) EmptyString) as [E|Hne]; [discriminate|].
    intros Hv. injection Hv as <-. split; [exact Hne|].
    intros ->. apply Hne. reflexivity.
Qed.

End Persisted.

(** C4 at the sample database: [eax] saved for [v1] is read back, and
    [unset] reads as nothing after a history that saved other names, a type
    for [unset], and [unset] for another function. *)
Lemma regvar_v1_eax :
  @regvar_round_trip headers64 fn_401000 "v1" "eax" ∅ /\
  fst (@findRegVar headers64 fn_401000 "unset"
         (@perform_all headers64 string declared_types sample_location
            [ (fn_401000, SaveRegVar "v1" "eax");
              (fn_401000, SaveSymbolType "unset" "int" on_stack);
              (fn_401020, SaveRegVar "unset" "ebx");
              (fn_401000, FindRegVar "v2") ] ∅)) = None.
Proof.
  destruct (@regvar_round_trip_nonempty headers64 string declared_types
              sample_location fn_401000 "v1" ∅) as (Hround & _ & _).
  destruct (@regvar_round_trip_nonempty headers64 string declared_types
              sample_location fn_401000 "unset" ∅) as (_ & _ & Hunset).
  split.
  - apply Hround; [discriminate|reflexivity].
  - apply Hunset.
    + split; reflexivity.
    + intros fs' c Hin. simpl in Hin.
      destruct Hin as [E|[E|[E|[E|[]]]]]; inversion E; subst; split; reflexivity.
    + intros fs' name' value Hin Hhex. simpl in Hin.
      destruct Hin as [E|[E|[E|[E|[]]]]]; inversion E; subst.
      * discriminate.
      * vm_compute in Hhex. discriminate Hhex.
Defined.

(** C4, as the specification words it, fails at the empty value: nothing
    is read back, not the empty string. *)
Lemma regvar_round_trip_empty_refuted :
  fst (@findRegVar headers64 fn_401000 "v1"
         (@saveRegVar headers64 fn_401000 "v1" "" ∅)) = None /\
  ~ @regvar_round_trip headers64 fn_401000 "v1" "" ∅.
Proof.
  assert (E : fst (@findRegVar headers64 fn_401000 "v1"
                     (@saveRegVar headers64 fn_401000 "v1" "" ∅)) = None).
  { rewrite findRegVar_saveRegVar. reflexivity. }
  split; [exact E|]. unfold regvar_round_trip. rewrite E. discriminate.
Qed.

(** C5 at the sample database: [int] then [char *] saved for [v1] reads
    back as [char *]. *)
Lemma symbol_type_v1 :
  @last_type_returned headers64 string declared_types sample_location
    fn_401000 "v1" "int" "char *" on_stack in_register ∅.
Proof.
  destruct (@symbol_type_last_writer_wins headers64 string declared_types
              sample_location fn_401000 "v1" "int" "char *" on_stack in_register ∅)
    as (_ & _ & _ & Hlast).
  apply (Hlast "char *"); [discriminate|reflexivity|reflexivity].
Defined.

(** C5, as the specification words it, fails at a second type whose
    declaration is empty: no descriptor is returned. *)
Lemma last_type_returned_empty_refuted :
  ~ @last_type_returned headers64 string declared_types sample_location
      fn_401000 "v1" "int" "" on_stack in_register ∅.
Proof.
  intros (T & Hfind & _).
  rewrite saveSymbolType_twice, findSymbolType_saveSymbolType in Hfind.
  discriminate Hfind.
Qed.

(** C9 at the sample database. *)
Lemma empty_value_v1 :
  fst (@findRegVar headers64 fn_401000 "v1"
         (@saveRegVar headers64 fn_401000 "v1" "" ∅)) = None /\
  fst (@findSymbolType headers64 string declared_types fn_401000 "v1"
         (@saveSymbolType headers64 string declared_types sample_location
            fn_401000 "v1" "" on_stack ∅)) = Ok None.
Proof.
  destruct (@empty_value_reads_as_unset headers64 string declared_types
              sample_location fn_401000 "v1" ∅) as (Hreg & _ & Htype & _).
  split; [exact Hreg|]. apply (Htype "" on_stack). reflexivity.
Defined.

(** * Further properties of the code *)

(** ** The factory *)

Section Factory.
Context `{Headers} `{BaseHelpers}.
Variable db : ida_database.
Variable short_names : Z -> string.

Lemma find_returns (a : Z) (s : SymbolInfo) :
  find db a = Some s ->
  m_ea s = to_uint64 a /\
  m_name s <> EmptyString /\
  c_str (m_name s) = m_name s /\
  exists n, db_names db (to_ea ea_size a) = Some n /\ m_name s = c_str n.
Proof.
  unfold find, get_name.
  destruct (db_names db (to_ea ea_size a)) as [n|]; [|discriminate].
  rewrite strlen_zero, orb_diag.
  destruct (String.eqb_spec (c_str n) EmptyString) as [E|Hne]; [discriminate|].
  intros Hs. injection Hs as <-. simpl. rewrite !c_str_idem.
  split; [reflexivity|]. split; [exact Hne|]. split; [reflexivity|].
  exists n. split; reflexivity.
Qed.

(** X1: [find] returns nothing exactly when the address has no name or a
    name that is empty as a C string; a symbol it returns carries the
    address asked for and that name, which is a non-empty C string. *)
Theorem find_named_address (a : Z) :
  (find db a = None <->
   db_names db (to_ea ea_size a) = None \/
   exists n, db_names db (to_ea ea_size a) = Some n /\ c_str n = EmptyString) /\
  (forall s, find db a = Some s ->
     m_ea s = to_uint64 a /\
     m_name s <> EmptyString /\
     c_str (m_name s) = m_name s /\
     exists n, db_names db (to_ea ea_size a) = Some n /\ m_name s = c_str n).
Proof.
  split; [|apply find_returns].
  unfold find, get_name.
  destruct (db_names db (to_ea ea_size a)) as [n|].
  - rewrite strlen_zero, orb_diag.
    destruct (String.eqb_spec (c_str n) EmptyString) as [E|Hne].
    + split; [intros _; right; exists n; auto|reflexivity].
    + split; [discriminate|].
      intros [Hnone|(n' & Hn' & E')]; [discriminate|].
      injection Hn' as <-. contradiction.
  - simpl. split; [intros _; left; reflexivity|reflexivity].
Qed.

(** X2: [find_function] returns nothing exactly when no function holds the
    address; a symbol it returns sits at the entry of the function that
    holds the address, whatever address inside it was asked for, so two
    addresses of one function give the same answer; and its result is
    undefined exactly when [split] gives no piece for the short name. *)
Theorem find_function_resolves_to_entry (a : Z) :
  (find_function db short_names a = Ok None <-> get_func ea_size db a = None) /\
  (forall fs, find_function db short_names a = Ok (Some fs) ->
     exists idaFunc,
       get_func ea_size db a = Some idaFunc /\
       getAddress (m_symbol fs) = start_ea idaFunc) /\
  (forall b, get_func ea_size db b = get_func ea_size db a ->
     find_function db short_names b = find_function db short_names a) /\
  (find_function db short_names a = Undefined <->
   exists idaFunc head,
     get_func ea_size db a = Some idaFunc /\
     head = match find_char "("%char (get_short_name short_names (start_ea idaFunc)) with
            | Some pp => substr (get_short_name short_names (start_ea idaFunc)) 0 pp
            | None => get_short_name short_names (start_ea idaFunc)
            end /\
     split (c_str head) " "%char = []) /\
  (forall e, find_function db short_names a <> Throw e).
Proof.
  unfold find_function.
  destruct (get_func ea_size db a) as [idaFunc|] eqn:Hf.
  - destruct (last _) as [functionName|] eqn:Hl.
    + split; [split; discriminate|]. split.
      { intros fs Hfs. injection Hfs as <-. exists idaFunc. auto. }
      split; [intros b Hb; rewrite Hb, Hl; reflexivity|].
      split; [|discriminate]. split; [discriminate|].
      intros (f & head & Hg & -> & Hs). injection Hg as <-.
      rewrite Hs in Hl. discriminate Hl.
    + split; [split; discriminate|]. split; [discriminate|].
      split; [intros b Hb; rewrite Hb, Hl; reflexivity|].
      split; [|discriminate]. split; [|reflexivity]. intros _.
      eexists. eexists. split; [reflexivity|]. split; [reflexivity|].
      apply last_None. exact Hl.
  - split; [split; reflexivity|]. split; [discriminate|].
    split; [intros b Hb; rewrite Hb; reflexivity|].
    split; [|discriminate]. split; [discriminate|].
    intros (f & _ & Hg & _). discriminate Hg.
Qed.

Lemma find_function_symbol (a : Z) (fs : FunctionSymbolInfo) :
  find_function db short_names a = Ok (Some fs) ->
  exists idaFunc,
    get_func ea_size db a = Some idaFunc /\ m_ea (m_symbol fs) = start_ea idaFunc.
Proof.
  unfold find_function.
  destruct (get_func ea_size db a) as [idaFunc|]; [|discriminate].
  destruct (last _); [|discriminate].
  intros Hfs. injection Hfs as <-. exists idaFunc. auto.
Qed.

(** X3: where every function of the database holds its own entry, the
    symbol [find_function] returns for an address is a function symbol:
    [isFunction] holds of it and [getFunctionSize] returns the size of the
    function that holds the address.  The symbol [find] returns for an
    address that is inside a function and not its entry is none:
    [getFunctionSize] throws on it. *)
Theorem find_function_symbol_has_size (a : Z) (idaFunc : func_t) :
  (forall f b, get_func ea_size db b = Some f ->
               get_func ea_size db (start_ea f) = Some f) ->
  get_func ea_size db a = Some idaFunc ->
  (forall fs, find_function db short_names a = Ok (Some fs) ->
     isFunction db (m_symbol fs) = true /\
     getFunctionSize db (m_symbol fs)
     = Ok (to_uint64 (to_ea ea_size (end_ea idaFunc - start_ea idaFunc)))) /\
  (forall s, find db a = Some s -> start_ea idaFunc <> to_uint64 a ->
     isFunction db s = false /\
     getFunctionSize db s = Throw (SymbolIsNotAFunction (m_name s))).
Proof.
  intros Hentry Hf. split.
  - intros fs Hfs. destruct (find_function_symbol a fs Hfs) as (f & Hg & Hea).
    rewrite Hf in Hg. injection Hg as <-.
    assert (Hg : get_func ea_size db (m_ea (m_symbol fs)) = Some idaFunc).
    { rewrite Hea. apply (Hentry idaFunc a Hf). }
    split.
    + apply isFunction_true_iff. exists idaFunc. auto.
    + apply getFunctionSize_function; auto.
  - intros s Hs Hne.
    destruct (find_returns a s Hs) as (Hea & _).
    assert (Hfn : isFunction db s = false).
    { unfold isFunction, get_func in *. rewrite Hea, to_ea_to_uint64, Hf.
      apply Z.eqb_neq. exact Hne. }
    split; [exact Hfn|]. apply getFunctionSize_not_function. exact Hfn.
Qed.


End Factory.

Lemma sample_db_entries (f : func_t) (b : Z) :
  get_func (@ea_size headers64) sample_db b = Some f ->
  get_func (@ea_size headers64) sample_db (start_ea f) = Some f.
Proof.
  unfold get_func. simpl.
  destruct ((4198400 <=? to_ea EA64 b) && (to_ea EA64 b <? 4198432)); [|discriminate].
  intros E. injection E as <-. reflexivity.
Qed.

(** X3 at the address [0x401010] of the sample database, inside the
    function that starts at [0x401000]. *)
Lemma find_function_inside_sample :
  @find_function headers64 sample_base sample_db sample_short_names 0x401010
  = Ok (Some fn_401000) /\
  @getFunctionSize headers64 sample_db (m_symbol fn_401000) = Ok 32 /\
  @find headers64 sample_db 0x401010 = Some loc_401010 /\
  @getFunctionSize headers64 sample_db loc_401010
  = Throw (SymbolIsNotAFunction "loc_401010").
Proof.
  destruct (@find_function_symbol_has_size headers64 sample_base sample_db
              sample_short_names 0x401010 sample_func sample_db_entries eq_refl)
    as [Hff Hf].
  split; [reflexivity|]. split; [|split; [reflexivity|]].
  - apply (Hff fn_401000). reflexivity.
  - apply (Hf loc_401010); [reflexivity|]. discriminate.
Defined.

(** ** isImport and getName *)

Lemma length_append (a b : string) :
  String.length (a +:+ b) = (String.length a + String.length b)%nat.
Proof.
  induction a as [|c a IH]; [reflexivity|].
  rewrite append_cons. cbn [String.length]. rewrite IH. reflexivity.
Qed.

Lemma substr_append_l (a b : string) : substr (a +:+ b) 0 (String.length a) = a.
Proof.
  induction a as [|c a IH].
  - rewrite append_nil_l. destruct b; reflexivity.
  - rewrite append_cons. cbn [String.length]. rewrite substr_cons, IH. reflexivity.
Qed.

Lemma substr_append_r (a b : string) :
  substr (a +:+ b) (String.length a) (String.length b) = b.
Proof.
  induction a as [|c a IH].
  - rewrite append_nil_l. apply substr_full.
  - rewrite append_cons. exact IH.
Qed.

Section Imports.
Context `{Headers}.
Variable db : ida_database.

(** X4: [isImport] answers true exactly when an import of some module
    has, as a C string, the name looked for: [m_name] itself, or [m_name]
    without its first six characters when it is longer than six characters
    and starts with [IMPORT_PREFIX].  Imports by ordinal, which have no
    name, never match, and the address plays no part. *)
Theorem isImport_iff_listed (s : SymbolInfo) :
  let importName :=
    if (6 <? strlen (m_name s)) && String.eqb (substr (m_name s) 0 6) IMPORT_PREFIX
    then substr (m_name s) 6 (String.length (m_name s) - 6)
    else m_name s in
  (isImport db s = true <->
   exists l e name,
     In l (db_imports db) /\ In e l /\
     imp_name e = Some name /\ importName = c_str name) /\
  (forall a, isImport db {| m_ea := a; m_name := m_name s |} = isImport db s).
Proof.
  intros importName. split; [apply isImport_true_iff|]. reflexivity.
Qed.

Lemma isImport_prefixed (a : Z) (n : string) :
  String.length IMPORT_PREFIX = 6%nat -> n <> EmptyString ->
  isImport db {| m_ea := a; m_name := IMPORT_PREFIX +:+ n |}
  = isImport_loop db n (Z.to_nat (get_import_module_qty db)) 0.
Proof.
  intros Hlen Hn. unfold isImport. cbn [m_name].
  assert (Hl : String.length (IMPORT_PREFIX +:+ n) = (6 + String.length n)%nat)
    by (rewrite length_append, Hlen; reflexivity).
  assert (H6 : (6 <? strlen (IMPORT_PREFIX +:+ n)) = true).
  { apply Z.ltb_lt. unfold strlen. rewrite Hl. destruct n; [contradiction|].
    cbn [String.length]. lia. }
  rewrite H6, Hl. rewrite <- Hlen at 1. rewrite substr_append_l, String.eqb_refl.
  cbn [andb]. replace (6 + String.length n - 6)%nat with (String.length n) by lia.
  rewrite <- Hlen, substr_append_r. reflexivity.
Qed.

Lemma isImport_bare (a : Z) (n : string) :
  strlen n <= 6 \/ substr n 0 6 <> IMPORT_PREFIX ->
  isImport db {| m_ea := a; m_name := n |}
  = isImport_loop db n (Z.to_nat (get_import_module_qty db)) 0.
Proof.
  intros Hbare. unfold isImport. cbn [m_name].
  destruct Hbare as [Hshort|Hne].
  - apply Z.ltb_ge in Hshort. rewrite Hshort. reflexivity.
  - apply String.eqb_neq in Hne. rewrite Hne, andb_false_r. reflexivity.
Qed.

(** X5: with an [IMPORT_PREFIX] of six characters, a name and the same
    name behind the prefix get the same answer from [isImport], provided
    the name is not empty and does not itself start with the prefix. *)
Theorem isImport_ignores_prefix (a a' : Z) (n : string) :
  String.length IMPORT_PREFIX = 6%nat ->
  n <> EmptyString ->
  strlen n <= 6 \/ substr n 0 6 <> IMPORT_PREFIX ->
  isImport db {| m_ea := a; m_name := IMPORT_PREFIX +:+ n |}
  = isImport db {| m_ea := a'; m_name := n |}.
Proof.
  intros Hlen Hn Hbare.
  rewrite (isImport_prefixed a n Hlen Hn), (isImport_bare a' n Hbare). reflexivity.
Qed.

Lemma pname_before_demangling_c_str (s : SymbolInfo) :
  c_str (pname_before_demangling db s) = pname_before_demangling db s.
Proof.
  unfold pname_before_demangling, cleanup_name.
  destruct (String.eqb _ _); [apply c_str_idem|].
  destruct (db_cleanup _ _ _); apply c_str_idem.
Qed.

Lemma getName_not_demangled (s : SymbolInfo) :
  demangle_name db (pname_before_demangling db s) MNG_MASK = EmptyString ->
  getName db s
  = if isImport db s then IMPORT_PREFIX +:+ pname_before_demangling db s
    else pname_before_demangling db s.
Proof.
  intros Hdem. unfold getName.
  rewrite pname_before_demangling_c_str, Hdem. cbn [String.eqb negb].
  rewrite pname_before_demangling_c_str. reflexivity.
Qed.

(** X6: when the demangler has nothing for the name the first step
    leaves, [getName] returns that name, behind [IMPORT_PREFIX] for an
    import: the name [cleanup_name] gives when the raw name does not start
    with [sub_] and the cleanup succeeds, the raw name as a C string when
    the cleanup fails. *)
Theorem getName_without_demangling (s : SymbolInfo) :
  demangle_name db (pname_before_demangling db s) MNG_MASK = EmptyString ->
  getName db s
  = (if isImport db s then IMPORT_PREFIX +:+ pname_before_demangling db s
     else pname_before_demangling db s) /\
  (forall cleaned,
     substr (m_name s) 0 4 <> "sub_" ->
     cleanup_name ea_size db (m_ea s) (c_str (m_name s)) = Some cleaned ->
     getName db s = if isImport db s then IMPORT_PREFIX +:+ cleaned else cleaned) /\
  (cleanup_name ea_size db (m_ea s) (c_str (m_name s)) = None ->
   getName db s
   = if isImport db s then IMPORT_PREFIX +:+ c_str (m_name s) else c_str (m_name s)).
Proof.
  intros Hdem. pose proof (getName_not_demangled s Hdem) as Hg.
  split; [exact Hg|]. split.
  - intros cleaned Hsub Hclean. rewrite Hg. unfold pname_before_demangling.
    apply String.eqb_neq in Hsub. rewrite Hsub, Hclean. reflexivity.
  - intros Hclean. rewrite Hg. unfold pname_before_demangling. rewrite Hclean.
    destruct (String.eqb _ _); reflexivity.
Qed.

(** X7: for an import whose raw name already starts with the six
    characters of [IMPORT_PREFIX], [getName] puts the prefix in front of
    what the cleanup leaves, without looking for a prefix there: the raw
    name comes back when the cleanup takes the prefix off, and comes back
    with the prefix twice when the cleanup fails. *)
Theorem getName_prefixed_import (s : SymbolInfo) (n : string) :
  String.length IMPORT_PREFIX = 6%nat ->
  c_str IMPORT_PREFIX = IMPORT_PREFIX ->
  m_name s = IMPORT_PREFIX +:+ n ->
  n <> EmptyString -> c_str n = n ->
  (exists l e name,
     In l (db_imports db) /\ In e l /\ imp_name e = Some name /\ n = c_str name) ->
  isImport db s = true /\
  (substr (m_name s) 0 4 <> "sub_" ->
   cleanup_name ea_size db (m_ea s) (c_str (m_name s)) = Some n ->
   demangle_name db n MNG_MASK = EmptyString ->
   getName db s = m_name s) /\
  (cleanup_name ea_size db (m_ea s) (c_str (m_name s)) = None ->
   demangle_name db (m_name s) MNG_MASK = EmptyString ->
   getName db s = IMPORT_PREFIX +:+ IMPORT_PREFIX +:+ n).
Proof.
  intros Hlen Hpc Hname Hn Hnc Hlisted.
  assert (Hraw : c_str (m_name s) = m_name s).
  { rewrite Hname, (c_str_app_cstr _ _ Hpc), Hnc. reflexivity. }
  assert (Himp : isImport db s = true).
  { destruct s as [a nm]. cbn [m_name] in Hname. subst nm.
    rewrite (isImport_prefixed a n Hlen Hn). apply isImport_loop_true_iff.
    destruct Hlisted as (l & e & name & Hl & He & Hnm & E).
    apply In_nth_error in Hl. destruct Hl as [j Hj].
    exists j, l, e, name. split; [|auto].
    split; [lia|]. unfold get_import_module_qty. rewrite Nat2Z.id.
    apply nth_error_Some. congruence. }
  split; [exact Himp|]. split.
  - intros Hsub Hclean Hdem.
    assert (Hp : pname_before_demangling db s = n).
    { unfold pname_before_demangling. apply String.eqb_neq in Hsub.
      rewrite Hsub, Hclean. reflexivity. }
    rewrite getName_not_demangled by (rewrite Hp; exact Hdem).
    rewrite Himp, Hp, Hname. reflexivity.
  - intros Hclean Hdem.
    assert (Hp : pname_before_demangling db s = m_name s).
    { unfold pname_before_demangling. rewrite Hclean, Hraw.
      destruct (String.eqb _ _); reflexivity. }
    rewrite getName_not_demangled by (rewrite Hp; exact Hdem).
    rewrite Himp, Hp, Hname. reflexivity.
Qed.

End Imports.

(** X5 at [CreateFileW] of the sample database. *)
Lemma isImport_CreateFileW :
  @isImport headers64 sample_db imp_CreateFileW = true /\
  @isImport headers64 sample_db imp_CreateFileW
  = @isImport headers64 sample_db CreateFileW.
Proof.
  split; [reflexivity|].
  apply (@isImport_ignores_prefix headers64 sample_db 0x403000 0x403000 "CreateFileW").
  - reflexivity.
  - discriminate.
  - right. intros E. vm_compute in E. discriminate E.
Defined.

(** X6 at [CreateFileW] of the sample database, which the demangler does
    not know. *)
Lemma getName_CreateFileW :
  @getName headers64 sample_db CreateFileW = "__imp_CreateFileW".
Proof.
  destruct (@getName_without_demangling headers64 sample_db CreateFileW eq_refl)
    as (_ & Hclean & _).
  apply (Hclean "CreateFileW"); [|reflexivity].
  intros E. vm_compute in E. discriminate E.
Defined.

(** X7 at [__imp_CreateFileW], under a cleanup that takes the prefix off
    and under one that fails. *)
Lemma getName_imp_CreateFileW :
  @getName headers64 stripping_db imp_CreateFileW = "__imp_CreateFileW" /\
  @getName headers64 no_cleanup_db imp_CreateFileW = "__imp___imp_CreateFileW".
Proof.
  assert (Hlisted : exists l e name,
            In l (db_imports sample_db) /\ In e l /\
            imp_name e = Some name /\ "CreateFileW" = c_str name).
  { eexists. eexists. exists "CreateFileW".
    split; [left; reflexivity|]. split; [right; left; reflexivity|].
    split; reflexivity. }
  split.
  - destruct (@getName_prefixed_import headers64 stripping_db imp_CreateFileW
                "CreateFileW" eq_refl eq_refl eq_refl) as (_ & Hstrip & _);
      [discriminate|reflexivity|exact Hlisted|].
    apply Hstrip; [|reflexivity|reflexivity].
    intros E. vm_compute in E. discriminate E.
  - destruct (@getName_prefixed_import headers64 no_cleanup_db imp_CreateFileW
                "CreateFileW" eq_refl eq_refl eq_refl) as (_ & _ & Hfail);
      [discriminate|reflexivity|exact Hlisted|].
    apply Hfail; reflexivity.
Defined.

(** ** findStackVar *)

Section StackVar.
Context `{Headers}.
Variable db : ida_database.

Lemma findStackVar_loop_defined (pfn : func_t) (ms : list member_t)
    (offset addrSize : Z) :
  exists r, findStackVar_loop db (Some pfn) ms offset addrSize = Ok r.
Proof.
  pose proof (findStackVar_loop_first_match db pfn ms offset addrSize) as Hm.
  cbv zeta in Hm.
  destruct (findStackVar_loop db (Some pfn) ms offset addrSize) as [r| |];
    [exists r; reflexivity|contradiction|contradiction].
Qed.

(** X8: [findStackVar] never throws, and its result is defined exactly
    when the function of the symbol is found and has a frame: without one
    the null frame is read for its member count. *)
Theorem findStackVar_defined_iff_frame (fs : FunctionSymbolInfo) (offset addrSize : Z) :
  (findStackVar db fs offset addrSize = Undefined <->
   get_frame db (get_func ea_size db (getAddress (m_symbol fs))) = None) /\
  ((exists r, findStackVar db fs offset addrSize = Ok r) <->
   exists pfn frame,
     get_func ea_size db (getAddress (m_symbol fs)) = Some pfn /\
     db_frames db pfn = Some frame) /\
  (forall e, findStackVar db fs offset addrSize <> Throw e).
Proof.
  unfold findStackVar.
  destruct (get_func ea_size db (getAddress (m_symbol fs))) as [pfn|] eqn:Hf;
    cbn [get_frame].
  - destruct (db_frames db pfn) as [frame|] eqn:Hfr.
    + destruct (findStackVar_loop_defined pfn (members frame)
                  (to_uint64 offset) (to_uint32 addrSize)) as [r Hr].
      rewrite Hr. split; [split; discriminate|]. split; [|discriminate].
      split; [|exists r; reflexivity]. intros _. exists pfn, frame. auto.
    + split; [split; reflexivity|]. split; [|discriminate].
      split; [intros [r Hr]; discriminate Hr|].
      intros (p & fr & Hp & Hfr'). injection Hp as <-. congruence.
  - split; [split; reflexivity|]. split; [|discriminate].
    split; [intros [r Hr]; discriminate Hr|].
    intros (p & fr & Hp & _). discriminate Hp.
Qed.

Lemma findStackVar_loop_low_bits (idaFunc : option func_t) (ms : list member_t)
    (offset offset' : Z) :
  to_uint32 offset = to_uint32 offset' ->
  findStackVar_loop db idaFunc ms offset 4 = findStackVar_loop db idaFunc ms offset' 4.
Proof.
  intros Hlow. induction ms as [|m rest IH]; [reflexivity|].
  cbn [findStackVar_loop]. destruct idaFunc as [pfn|]; [|reflexivity].
  assert (Htest : forall o,
            (sofset pfn m =? o)
            || ((4 =? 4) && (to_uint32 (sofset pfn m) =? to_uint32 o))
            = (to_uint32 (sofset pfn m) =? to_uint32 o)).
  { intros o. cbn [Z.eqb Pos.eqb andb].
    destruct (Z.eqb_spec (sofset pfn m) o) as [->|_]; [|reflexivity].
    rewrite Z.eqb_refl. reflexivity. }
  rewrite !Htest, Hlow, IH. reflexivity.
Qed.

Lemma to_uint32_to_uint64 (x : Z) : to_uint32 (to_uint64 x) = to_uint32 x.
Proof. apply (to_ea_to_uint64 EA32). Qed.

(** X9: with addresses four bytes wide, [findStackVar] looks at the low
    32 bits of the offset only: two offsets that agree on them resolve to
    the same variable. *)
Theorem findStackVar_width_4_low_bits (fs : FunctionSymbolInfo)
    (offset offset' addrSize : Z) :
  to_uint32 addrSize = 4 ->
  offset mod 2 ^ 32 = offset' mod 2 ^ 32 ->
  findStackVar db fs offset addrSize = findStackVar db fs offset' addrSize.
Proof.
  intros Hw Hlow. unfold findStackVar. rewrite Hw.
  destruct (get_frame db _) as [frame|]; [|reflexivity].
  apply findStackVar_loop_low_bits. rewrite !to_uint32_to_uint64. exact Hlow.
Qed.

End StackVar.

(** X9 at the frame of the sample database: the sign-extended and the
    zero-extended -8 find the same variable. *)
Lemma findStackVar_sign_extension :
  @findStackVar headers64 sample_db fn_401000 (-8) 4
  = @findStackVar headers64 sample_db fn_401000 0xFFFFFFF8 4.
Proof.
  apply (@findStackVar_width_4_low_bits headers64 sample_db fn_401000
           (-8) 0xFFFFFFF8 4); reflexivity.
Defined.

(** ** The store under saves and finds *)

Lemma netnode_open_created (st : netnodes) (k : string) :
  netnode_open st k true = match st !! k with Some _ => st | None => <[k := None]> st end.
Proof. reflexivity. Qed.

Section NodeNamesMore.
Context `{Headers}.

Lemma type_node_inj (fs fs' : FunctionSymbolInfo) (name name' : string) :
  plain (to_hex (getAddress (m_symbol fs))) ->
  plain (to_hex (getAddress (m_symbol fs'))) ->
  c_str (type_node fs' name') = c_str (type_node fs name) ->
  to_hex (getAddress (m_symbol fs')) = to_hex (getAddress (m_symbol fs)) /\
  c_str name' = c_str name.
Proof.
  intros Hp Hp' E.
  rewrite (c_str_type_node fs name Hp), (c_str_type_node fs' name' Hp') in E.
  apply append_inj_l in E.
  destruct (dotted_inj _ _ _ _ (proj2 Hp') (proj2 Hp) E) as [Hh Hx].
  split; [exact Hh|]. apply (append_inj_l "yagitype."). exact Hx.
Qed.

End NodeNamesMore.

Section StoreMore.
Context `{Headers}.
Context {TypeInfo : Type} `{TypeInfoFactory TypeInfo}.
Context {MemoryLocation : Type}.

Lemma saveRegVar_insert (fs : FunctionSymbolInfo) (name value : string) (st : netnodes) :
  saveRegVar fs name value st = <[c_str (regvar_node fs name) := Some (c_str value)]> st.
Proof. unfold saveRegVar. rewrite netnode_set_open. reflexivity. Qed.

Lemma saveSymbolType_insert (fs : FunctionSymbolInfo) (name : string) (newType : TypeInfo)
    (loc : MemoryLocation) (st : netnodes) :
  saveSymbolType fs name newType loc st
  = <[c_str (type_node fs name) := Some (c_str (TypeInfo_getName newType))]> st.
Proof. unfold saveSymbolType. rewrite netnode_set_open. reflexivity. Qed.

Lemma findRegVar_store (fs : FunctionSymbolInfo) (name : string) (st : netnodes) :
  snd (findRegVar fs name st) = netnode_open st (c_str (regvar_node fs name)) true.
Proof.
  unfold findRegVar. destruct (netnode_valstr _ _) as [size res].
  destruct (strlen res =? 0); reflexivity.
Qed.

Lemma findSymbolType_store (fs : FunctionSymbolInfo) (name : string) (st : netnodes) :
  snd (findSymbolType fs name st) = netnode_open st (c_str (type_node fs name)) true.
Proof.
  unfold findSymbolType. destruct (netnode_valstr _ _) as [size res].
  destruct (strlen res =? 0); reflexivity.
Qed.

(** X10: of two [saveRegVar] on one name the second wins: the store is
    the store after the second alone, [findRegVar] returns the C string of
    the second value (nothing when that is empty), and this [findRegVar]
    leaves the store as the save left it. *)
Theorem saveRegVar_last_writer_wins (fs : FunctionSymbolInfo) (name v1 v2 : string)
    (st : netnodes) :
  let st2 := saveRegVar fs name v2 (saveRegVar fs name v1 st) in
  st2 = saveRegVar fs name v2 st /\
  fst (findRegVar fs name st2)
  = (if String.eqb (c_str v2) EmptyString then None else Some (c_str v2)) /\
  snd (findRegVar fs name st2) = st2.
Proof.
  intros st2.
  assert (Hst : st2 = saveRegVar fs name v2 st).
  { unfold st2. rewrite !saveRegVar_insert. apply insert_insert_eq. }
  split; [exact Hst|]. split.
  - rewrite Hst. apply findRegVar_saveRegVar.
  - rewrite findRegVar_store, netnode_open_created, Hst, saveRegVar_insert.
    rewrite lookup_insert_eq. reflexivity.
Qed.

(** X11: a call changes what a find returns only when it is a save on the
    same node.  With plain renderings of the two addresses, [findRegVar]
    on a name returns after any call what it returned before, unless the
    call is a [saveRegVar] for the same rendered address and the same name
    as a C string; and likewise [findSymbolType] and [saveSymbolType].  A
    find never changes a later find, and a register variable and a type of
    one name never meet. *)
Theorem finds_see_only_their_node (fs fs' : FunctionSymbolInfo) (name : string)
    (c : @call TypeInfo MemoryLocation) (st : netnodes) :
  plain (to_hex (getAddress (m_symbol fs))) ->
  plain (to_hex (getAddress (m_symbol fs'))) ->
  ((forall name' value, c = SaveRegVar name' value ->
      to_hex (getAddress (m_symbol fs')) = to_hex (getAddress (m_symbol fs)) ->
      c_str name' <> c_str name) ->
   fst (findRegVar fs name (perform st (fs', c))) = fst (findRegVar fs name st)) /\
  ((forall name' newType loc, c = SaveSymbolType name' newType loc ->
      to_hex (getAddress (m_symbol fs')) = to_hex (getAddress (m_symbol fs)) ->
      c_str name' <> c_str name) ->
   fst (findSymbolType fs name (perform st (fs', c)))
   = fst (findSymbolType fs name st)).
Proof.
  intros Hp Hp'. split; intros Hother.
  - rewrite !findRegVar_node_value.
    enough (Hv : node_value (perform st (fs', c)) (c_str (regvar_node fs name))
                 = node_value st (c_str (regvar_node fs name)))
      by (rewrite Hv; reflexivity).
    destruct c as [n|n v|n t loc|n]; cbn [perform].
    + apply node_value_findRegVar.
    + rewrite node_value_saveRegVar.
      destruct (decide _) as [E|_]; [|reflexivity].
      destruct (regvar_node_inj fs fs' name n Hp Hp' E) as [Hh Hn].
      exfalso. exact (Hother n v eq_refl Hh Hn).
    + rewrite node_value_saveSymbolType.
      destruct (decide _) as [E|_]; [|reflexivity].
      exfalso. exact (type_node_not_regvar_node fs fs' name n Hp Hp' E).
    + apply node_value_findSymbolType.
  - rewrite !findSymbolType_node_value.
    enough (Hv : node_value (perform st (fs', c)) (c_str (type_node fs name))
                 = node_value st (c_str (type_node fs name)))
      by (rewrite Hv; reflexivity).
    destruct c as [n|n v|n t loc|n]; cbn [perform].
    + apply node_value_findRegVar.
    + rewrite node_value_saveRegVar.
      destruct (decide _) as [E|_]; [|reflexivity].
      exfalso. symmetry in E.
      exact (type_node_not_regvar_node fs' fs n name Hp' Hp E).
    + rewrite node_value_saveSymbolType.
      destruct (decide _) as [E|_]; [|reflexivity].
      destruct (type_node_inj fs fs' name n Hp Hp' E) as [Hh Hn].
      exfalso. exact (Hother n t loc eq_refl Hh Hn).
    + apply node_value_findSymbolType.
Qed.

(** X12: [findRegVar] and [findSymbolType] are not pure reads: each opens
    its node with creation, so a find on a name without a node leaves a
    node without a value in the store; on a name with a node it leaves the
    store as it was.  No value of the store changes either way. *)
Theorem finds_create_their_node (fs : FunctionSymbolInfo) (name : string)
    (st : netnodes) :
  (st !! c_str (regvar_node fs name) = None ->
   snd (findRegVar fs name st) = <[c_str (regvar_node fs name) := None]> st /\
   snd (findRegVar fs name st) <> st) /\
  (is_Some (st !! c_str (regvar_node fs name)) -> snd (findRegVar fs name st) = st) /\
  (st !! c_str (type_node fs name) = None ->
   snd (findSymbolType fs name st) = <[c_str (type_node fs name) := None]> st /\
   snd (findSymbolType fs name st) <> st) /\
  (is_Some (st !! c_str (type_node fs name)) -> snd (findSymbolType fs name st) = st) /\
  (forall k, node_value (snd (findRegVar fs name st)) k = node_value st k) /\
  (forall k, node_value (snd (findSymbolType fs name st)) k = node_value st k).
Proof.
  assert (Hnew : forall k : string, st !! k = None ->
            netnode_open st k true = <[k := None]> st /\ netnode_open st k true <> st).
  { intros k Hk. rewrite netnode_open_created, Hk. split; [reflexivity|].
    intros E. assert (Hl : <[k := None]> st !! k = st !! k) by (rewrite E; reflexivity).
    rewrite lookup_insert_eq, Hk in Hl. discriminate Hl. }
  assert (Hold : forall k : string, is_Some (st !! k) -> netnode_open st k true = st).
  { intros k [v Hk]. rewrite netnode_open_created, Hk. reflexivity. }
  rewrite findRegVar_store, findSymbolType_store.
  split; [apply Hnew|]. split; [apply Hold|]. split; [apply Hnew|].
  split; [apply Hold|]. split; intros k; apply node_value_open.
Qed.

(** X13: saves on different nodes can be made in either order.  With
    plain renderings of the addresses, a [saveRegVar] and a
    [saveSymbolType] commute whatever their names, and two [saveRegVar]
    commute when they differ in the rendered address or in the name as a C
    string. *)
Theorem saves_commute (fs fs' : FunctionSymbolInfo) (name name' value value' : string)
    (newType : TypeInfo) (loc : MemoryLocation) (st : netnodes) :
  plain (to_hex (getAddress (m_symbol fs))) ->
  plain (to_hex (getAddress (m_symbol fs'))) ->
  saveRegVar fs name value (saveSymbolType fs' name' newType loc st)
  = saveSymbolType fs' name' newType loc (saveRegVar fs name value st) /\
  (to_hex (getAddress (m_symbol fs')) <> to_hex (getAddress (m_symbol fs)) \/
   c_str name' <> c_str name ->
   saveRegVar fs name value (saveRegVar fs' name' value' st)
   = saveRegVar fs' name' value' (saveRegVar fs name value st)).
Proof.
  intros Hp Hp'. split.
  - rewrite !saveRegVar_insert, !saveSymbolType_insert.
    apply insert_insert_ne. intros E. symmetry in E.
    exact (type_node_not_regvar_node fs fs' name name' Hp Hp' E).
  - intros Hdiff. rewrite !saveRegVar_insert.
    apply insert_insert_ne. intros E. symmetry in E.
    destruct (regvar_node_inj fs fs' name name' Hp Hp' E) as [Hh Hn].
    destruct Hdiff as [Hd|Hd]; contradiction.
Qed.

Lemma perform_keeps_c_strings (st : netnodes)
    (c : FunctionSymbolInfo * @call TypeInfo MemoryLocation) :
  values_are_c_strings st -> values_are_c_strings (perform st c).
Proof.
  intros Hst k v. destruct c as [fs [n|n value|n t loc|n]]; cbn [perform].
  - rewrite node_value_findRegVar. apply Hst.
  - rewrite node_value_saveRegVar. destruct (decide _) as [_|_]; [|apply Hst].
    intros E. injection E as <-. apply c_str_idem.
  - rewrite node_value_saveSymbolType. destruct (decide _) as [_|_]; [|apply Hst].
    intros E. injection E as <-. apply c_str_idem.
  - rewrite node_value_findSymbolType. apply Hst.
Qed.

Lemma perform_all_keeps_c_strings
    (history : list (FunctionSymbolInfo * @call TypeInfo MemoryLocation))
    (st : netnodes) :
  values_are_c_strings st -> values_are_c_strings (perform_all history st).
Proof.
  revert st. induction history as [|c history IH]; intros st Hst; [exact Hst|].
  unfold perform_all. cbn [fold_left]. apply IH. apply perform_keeps_c_strings. exact Hst.
Qed.

(** X14: every value of a store built from the empty store by saves and
    finds is a C string, so after any history what [findRegVar] returns is
    a non-empty C string, and [findSymbolType] returns nothing or what the
    parser builds from a non-empty C string. *)
Theorem reads_are_non_empty_c_strings
    (history : list (FunctionSymbolInfo * @call TypeInfo MemoryLocation))
    (fs : FunctionSymbolInfo) (name : string) :
  values_are_c_strings (perform_all history ∅) /\
  (forall v, fst (findRegVar fs name (perform_all history ∅)) = Some v ->
     v <> EmptyString /\ c_str v = v) /\
  (fst (findSymbolType fs name (perform_all history ∅)) = Ok None \/
   exists decl,
     decl <> EmptyString /\ c_str decl = decl /\
     fst (findSymbolType fs name (perform_all history ∅)) = build_decl decl).
Proof.
  assert (Hwf : values_are_c_strings (perform_all history ∅)).
  { apply perform_all_keeps_c_strings. intros k v. unfold node_value.
    rewrite lookup_empty. discriminate. }
  split; [exact Hwf|]. split.
  - intros v. rewrite findRegVar_node_value.
    destruct (node_value _ _) as [v0|] eqn:Hv; [|discriminate].
    destruct (String.eqb_spec v0 EmptyString) as [_|Hne]; [discriminate|].
    intros E. injection E as <-. rewrite (Hwf _ _ Hv). split; [exact Hne|].
    apply (Hwf _ _ Hv).
  - rewrite findSymbolType_node_value.
    destruct (node_value _ _) as [v0|] eqn:Hv; [|left; reflexivity].
    destruct (String.eqb_spec v0 EmptyString) as [_|Hne]; [left; reflexivity|].
    right. exists v0. split; [exact Hne|].
    split; [apply (Hwf _ _ Hv)|]. rewrite (Hwf _ _ Hv). reflexivity.
Qed.

End StoreMore.

(** X11 at the sample database: a type saved for [v1] leaves the register
    saved for [v1] in place. *)
Lemma findRegVar_after_type :
  fst (@findRegVar headers64 fn_401000 "v1"
         (@saveSymbolType headers64 string declared_types sample_location
            fn_401000 "v1" "int" on_stack
            (@saveRegVar headers64 fn_401000 "v1" "eax" ∅)))
  = Some "eax".
Proof.
  destruct (@finds_see_only_their_node headers64 string declared_types sample_location
              fn_401000 fn_401000 "v1" (SaveSymbolType "v1" "int" on_stack)
              (@saveRegVar headers64 fn_401000 "v1" "eax" ∅))
    as [Hreg _]; [split; reflexivity|split; reflexivity|].
  transitivity (fst (@findRegVar headers64 fn_401000 "v1"
                       (@saveRegVar headers64 fn_401000 "v1" "eax" ∅))).
  - apply Hreg. intros name' value E. discriminate E.
  - rewrite findRegVar_saveRegVar. reflexivity.
Defined.

(** X13 at the sample database: a register and a type saved for [v1], in
    either order. *)
Lemma saves_commute_v1 :
  @saveRegVar headers64 fn_401000 "v1" "eax"
    (@saveSymbolType headers64 string declared_types sample_location
       fn_401000 "v1" "int" on_stack ∅)
  = @saveSymbolType headers64 string declared_types sample_location
      fn_401000 "v1" "int" on_stack
      (@saveRegVar headers64 fn_401000 "v1" "eax" ∅).
Proof.
  apply (@saves_commute headers64 string declared_types sample_location
           fn_401000 fn_401000 "v1" "v1" "eax" "eax" "int" on_stack ∅);
    split; reflexivity.
Defined.
